(** * prd-agent: the market-research agent, its report extractor and its
      streaming session manager

    A shallow embedding of [src/market_research/agent.py] and
    [src/market_research/web.py], and the properties the specification
    states about them.

    Conventions of the embedding.
    - A Python [str] is a list of Unicode code points ([str] is [list N]);
      [len] is [length], concatenation is [++], truthiness is non-emptiness.
    - [re.search] is a small backtracking matcher over a regular-expression
      syntax tree; the three patterns of [agent.py] are values of that type.
    - The module-level dict [_active_sessions] is a [gmap] from session ids
      to task handles; the tasks themselves live in a store so that the
      registry and the stream generator alias the same task.
    - The external agent runtime, the PDF renderer, the clock and the file
      system are environments: the values they hand back are inputs of the
      model. *)

From Stdlib Require Import ZArith NArith List Bool Lia Ascii String.
From stdpp Require Import gmap list functions.
Import ListNotations.

Local Open Scope nat_scope.
Local Open Scope list_scope.

(* ===================================================================== *)
(** * Python strings *)
(* ===================================================================== *)

Module PyStr.

(** A code point. *)
Abbreviation char := N (only parsing).

(** A Python [str]. *)
Abbreviation str := (list N) (only parsing).

(** ASCII literals of the source, as code points. *)
Definition py (s : string) : str := map N_of_ascii (list_ascii_of_string s).
Arguments py s%_string : simpl never.

Definition NL : char := 10%N.        (* "\n" *)
Definition SP : char := 32%N.        (* " " *)
Definition HASH : char := 35%N.      (* "#" *)

(** [bool(s)] for a string. *)
Definition truthy (s : str) : bool :=
  match s with [] => false | _ :: _ => true end.

(** [str.isspace] on one code point: the characters [str.strip()] removes.
    Below 128 these are the control characters 0x09-0x0D and 0x1C-0x1F and
    the space; above, NEL, NBSP and the Unicode space separators. *)
Definition isspace (c : char) : bool :=
  ((9 <=? c) && (c <=? 13) || (28 <=? c) && (c <=? 32)
   || (c =? 133) || (c =? 160) || (c =? 5760)
   || (8192 <=? c) && (c <=? 8202)
   || (c =? 8232) || (c =? 8233) || (c =? 8239) || (c =? 8287)
   || (c =? 12288))%N.

Fixpoint lstrip (s : str) : str :=
  match s with
  | [] => []
  | c :: s' => if isspace c then lstrip s' else s
  end.

Definition rstrip (s : str) : str := rev (lstrip (rev s)).

(** [s.strip()] *)
Definition strip (s : str) : str := rstrip (lstrip s).

(** [sep.join(parts)] *)
Fixpoint join (sep : str) (parts : list str) : str :=
  match parts with
  | [] => []
  | [p] => p
  | p :: rest => p ++ sep ++ join sep rest
  end.

(** [l[i:]] for any integer [i]: a negative index counts from the end and
    is clipped at the start of the list, a large one at its end. *)
Definition slice_from {A} (i : Z) (l : list A) : list A :=
  if (i <? 0)%Z
  then skipn (Z.to_nat (Z.max 0 (Z.of_nat (length l) + i))) l
  else skipn (Z.to_nat i) l.

(** [range(a, b)] *)
Definition range (a b : nat) : list nat := seq a (b - a).

(** [for x in l: <if ...: return v>]: the first iteration that returns. *)
Fixpoint for_return {A B} (l : list A) (body : A -> option B) : option B :=
  match l with
  | [] => None
  | x :: l' =>
      match body x with
      | Some v => Some v
      | None => for_return l' body
      end
  end.

End PyStr.

(* ===================================================================== *)
(** * The fragment of [re] the program uses *)
(* ===================================================================== *)

Module Re.
Import PyStr.

Record flags := { MULTILINE : bool; IGNORECASE : bool }.

(** Groups are not represented: the program only asks whether there is a
    match and where it starts. *)
Inductive regex :=
| Eps
| Lit (c : char)            (* a literal character *)
| Dot                       (* [.] without DOTALL *)
| Bol                       (* [^] *)
| Cat (r1 r2 : regex)
| Alt (r1 r2 : regex)       (* [r1|r2] *)
| Plus (r : regex).         (* [r+] *)

(** A literal word. *)
Fixpoint word (w : str) : regex :=
  match w with
  | [] => Eps
  | c :: w' => Cat (Lit c) (word w')
  end.

(** [a|b|...] *)
Fixpoint alts (rs : list regex) : regex :=
  match rs with
  | [] => Eps
  | [r] => r
  | r :: rs' => Alt r (alts rs')
  end.

(** The simple lower-case mapping the matcher applies to a subject
    character under IGNORECASE.  Only its values that are ASCII letters
    matter for ASCII patterns, and exactly two code points outside ASCII
    map to an ASCII letter: U+0130 (to i) and U+212A, the Kelvin sign
    (to k).  Every other code point is left alone here. *)
Definition lower (c : char) : char :=
  (if (65 <=? c) && (c <=? 90) then c + 32
   else if c =? 304 then 105
   else if c =? 8490 then 107
   else c)%N.

(** The extra case equivalences of a lower-case pattern character that the
    compiler adds to it: dotless i for i, long s for s. *)
Definition case_fixes (lo : char) : list char :=
  (if lo =? 105 then [305] else if lo =? 115 then [383] else [])%N.

(** Does subject character [x] match pattern literal [c]? *)
Definition lit_match (fl : flags) (c x : char) : bool :=
  if IGNORECASE fl
  then let lo := lower c in
       existsb (N.eqb (lower x)) (lo :: case_fixes lo)
  else (c =? x)%N.

(** [at_bol fl prev]: does [^] match at a position whose preceding
    character is [prev] ([None] at the start of the subject)? *)
Definition at_bol (fl : flags) (prev : option char) : bool :=
  match prev with
  | None => true
  | Some c => MULTILINE fl && (c =? NL)%N
  end.

(** Backtracking match of [r] at the current position, in continuation
    style: [k] receives the character before the position reached and the
    rest of the subject.  [Plus] is greedy; every iteration of its loop is
    given one unit of fuel per remaining character. *)
Fixpoint matches (fl : flags) (r : regex) (prev : option char) (s : str)
    (k : option char -> str -> bool) {struct r} : bool :=
  match r with
  | Eps => k prev s
  | Lit c =>
      match s with
      | x :: s' => lit_match fl c x && k (Some x) s'
      | [] => false
      end
  | Dot =>
      match s with
      | x :: s' => negb (x =? NL)%N && k (Some x) s'
      | [] => false
      end
  | Bol => at_bol fl prev && k prev s
  | Cat r1 r2 => matches fl r1 prev s (fun p' s' => matches fl r2 p' s' k)
  | Alt r1 r2 => matches fl r1 prev s k || matches fl r2 prev s k
  | Plus r1 =>
      (fix loop (fuel : nat) (prev : option char) (s : str) : bool :=
         match fuel with
         | 0 => false
         | S fuel' =>
             matches fl r1 prev s
               (fun p' s' => loop fuel' p' s' || k p' s')
         end) (S (length s)) prev s
  end.

(** Is there a match starting exactly here? *)
Definition match_here (fl : flags) (r : regex) (prev : option char) (s : str) : bool :=
  matches fl r prev s (fun _ _ => true).

(** Scan the start positions from left to right. *)
Fixpoint search_from (fl : flags) (r : regex) (pos : nat)
    (prev : option char) (s : str) : option nat :=
  if match_here fl r prev s then Some pos
  else match s with
       | [] => None
       | x :: s' => search_from fl r (S pos) (Some x) s'
       end.

(** [re.search(r, text, flags)]: [Some start] for a match object whose
    [start()] is [start], [None] for no match. *)
Definition search (r : regex) (text : str) (fl : flags) : option nat :=
  search_from fl r 0 None text.

(** [bool(match)] *)
Definition found (m : option nat) : bool :=
  match m with Some _ => true | None => false end.

End Re.

(* ===================================================================== *)
(** * agent.py: recognising and extracting the report *)
(* ===================================================================== *)

Module Agent.
Import PyStr Re.

(** [r1 r2 ... rn] in sequence. *)
Fixpoint cats (rs : list regex) : regex :=
  match rs with
  | [] => Eps
  | [r] => r
  | r :: rs' => Cat r (cats rs')
  end.

(** [r"^# .+"] *)
Definition H1_RE : regex := cats [Bol; Lit HASH; Lit SP; Plus Dot].

(** [r"^## .+"] *)
Definition H2_RE : regex := cats [Bol; Lit HASH; Lit HASH; Lit SP; Plus Dot].

Definition REPORT_WORDS : list str :=
  [py "Market"; py "Research"; py "Brief"; py "Report"; py "Analysis";
   py "Overview"; py "Executive"].

(** [r"^# .+(?:Market|Research|Brief|Report|Analysis|Overview|Executive)"];
    strategy 4 wraps the same expression in a capturing group. *)
Definition REPORT_HEADING_RE : regex :=
  cats [Bol; Lit HASH; Lit SP; Plus Dot; alts (map word REPORT_WORDS)].

Definition M : flags := {| MULTILINE := true; IGNORECASE := false |}.
Definition MI : flags := {| MULTILINE := true; IGNORECASE := true |}.

(** [_is_report_text(text, min_length)] *)
Definition _is_report_text (text : str) (min_length : nat) : bool :=
  let has_h1 := found (search H1_RE text M) in
  let has_h2 := found (search H2_RE text M) in
  let is_long := min_length <? length text in
  has_h1 && has_h2 && is_long.

(** [_has_report_heading(text)] *)
Definition _has_report_heading (text : str) : bool :=
  found (search REPORT_HEADING_RE text MI).

(** ["\n\n"] *)
Definition BLANK : str := [NL; NL].

(** [message_texts[-n:]] *)
Definition last_n (n : nat) (message_texts : list str) : list str :=
  slice_from (- Z.of_nat n) message_texts.

Section Strategies.
Variable result_text : str.
Variable message_texts : list str.

(** Strategy 1: the terminal result is the report. *)
Definition strategy1 : option str :=
  if truthy result_text && _is_report_text result_text 1000
  then Some (strip result_text)
  else None.

(** Strategies 2 and 6: the most recent single message that qualifies. *)
Definition single_message (min_length : nat) : option str :=
  for_return (rev message_texts) (fun msg_text =>
    if _is_report_text msg_text min_length
    then Some (strip msg_text) else None).

(** Strategies 3 and 7: the shortest window of trailing messages, of
    size 2 to 7, that qualifies once joined. *)
Definition trailing_window (min_length : nat) : option str :=
  for_return (range 2 (Nat.min 8 (length message_texts + 1))) (fun n =>
    let combined := join BLANK (last_n n message_texts) in
    if _is_report_text combined min_length
    then Some (strip combined) else None).

(** The text strategies 4 and 7 work on. *)
Definition full_text : str :=
  let full_text := join BLANK message_texts in
  if truthy result_text then full_text ++ BLANK ++ result_text
  else full_text.

(** Strategy 4: everything from the first report-style heading, or
    failing that from the first top-level heading. *)
Definition strategy4 : option str :=
  let m := search REPORT_HEADING_RE full_text MI in
  let m := match m with
           | Some _ => m
           | None => search H1_RE full_text M
           end in
  match m with
  | Some start =>
      let report_portion := strip (slice_from (Z.of_nat start) full_text) in
      if 300 <? length report_portion then Some report_portion else None
  | None => None
  end.

(** Strategy 5: trailing messages followed by the terminal result. *)
Definition strategy5 : option str :=
  if truthy result_text && (200 <? length result_text)
  then for_return (range 1 (Nat.min 5 (length message_texts + 1))) (fun n =>
         let combined :=
           join BLANK (last_n n message_texts) ++ BLANK ++ result_text in
         if _is_report_text combined 500
         then Some (strip combined) else None)
  else None.

(** Strategy 7, the last resort. *)
Definition last_resort : str :=
  if truthy (strip full_text) then strip full_text else result_text.

End Strategies.

(** [_extract_report(result_text, message_texts)] *)
Definition _extract_report (result_text : str) (message_texts : list str) : str :=
  match strategy1 result_text with
  | Some r => r
  | None =>
  match single_message message_texts 1000 with
  | Some r => r
  | None =>
  match trailing_window message_texts 1000 with
  | Some r => r
  | None =>
  match strategy4 result_text message_texts with
  | Some r => r
  | None =>
  match strategy5 result_text message_texts with
  | Some r => r
  | None =>
  match single_message message_texts 500 with
  | Some r => r
  | None =>
  match trailing_window message_texts 500 with
  | Some r => r
  | None => last_resort result_text message_texts
  end end end end end end end.

(* --------------------------------------------------------------------- *)
(** ** The runner's message loop *)
(* --------------------------------------------------------------------- *)

(** The messages of the agent runtime, as far as the runner looks at them. *)
Inductive ContentBlock :=
| TextBlock (text : str)
| ToolUseBlock (name : str) (input : option (gmap str str))
| OtherBlock.

Inductive Message :=
| AssistantMessage (content : list ContentBlock)
| ResultMessage (result : option str)
| SystemMessage
| UserMessage.

(** What [_emit] hands to [on_progress]: the message, kept as the values
    its f-string is formatted from, and the message type. *)
Inductive progress_message :=
| AgentInitialized
| Searching (search_count : nat) (q : str)
| Reading (fetch_count : nat) (url : str)
| ResearchDone (search_count fetch_count : nat)
| Collected (messages total_chars result_chars : nat)
| LargestMessages (top : list (nat * nat))
| ExtractedReport (chars : nat).

(** One call [on_progress(message, msg_type)]. *)
Definition progress := (progress_message * str)%type.

(** The local variables of [run_research_agent] that the loop updates,
    and the calls of [on_progress] so far. *)
Record locals := {
  message_texts : list str;
  result_text : str;
  search_count : nat;
  fetch_count : nat;
  emitted : list progress
}.

Definition initial : locals :=
  {| message_texts := []; result_text := []; search_count := 0;
     fetch_count := 0; emitted := [(AgentInitialized, py "phase")] |}.

(** [(block.input or {}).get(key, "")] *)
Definition tool_input_get (input : option (gmap str str)) (key : str) : str :=
  default [] (default ∅ input !! key).

(** One block of an assistant message; [parts] is [msg_text_parts]. *)
Definition on_block (acc : list str * locals) (block : ContentBlock)
    : list str * locals :=
  let '(parts, st) := acc in
  match block with
  | TextBlock text => (parts ++ [text], st)
  | ToolUseBlock tool_name tool_input =>
      if decide (tool_name = py "WebSearch") then
        let n := S (search_count st) in
        (parts,
         {| message_texts := message_texts st; result_text := result_text st;
            search_count := n; fetch_count := fetch_count st;
            emitted := emitted st ++
              [(Searching n (tool_input_get tool_input (py "query")), py "search")] |})
      else if decide (tool_name = py "WebFetch") then
        let n := S (fetch_count st) in
        (parts,
         {| message_texts := message_texts st; result_text := result_text st;
            search_count := search_count st; fetch_count := n;
            emitted := emitted st ++
              [(Reading n (tool_input_get tool_input (py "url")), py "fetch")] |})
      else (parts, st)
  | OtherBlock => (parts, st)
  end.

(** One iteration of [async for message in query(...)]. *)
Definition on_message (st : locals) (message : Message) : locals :=
  match message with
  | AssistantMessage content =>
      let '(msg_text_parts, st) := fold_left on_block content ([], st) in
      match msg_text_parts with
      | [] => st
      | _ :: _ =>
          {| message_texts := message_texts st ++ [join [NL] msg_text_parts];
             result_text := result_text st;
             search_count := search_count st; fetch_count := fetch_count st;
             emitted := emitted st |}
      end
  | ResultMessage result =>
      match result with
      | Some r =>
          if truthy r then
            {| message_texts := message_texts st; result_text := r;
               search_count := search_count st; fetch_count := fetch_count st;
               emitted := emitted st |}
          else st
      | None => st
      end
  | SystemMessage | UserMessage => st
  end.

(** The whole loop over the stream the runtime yields. *)
Definition consume (stream : list Message) : locals :=
  fold_left on_message stream initial.

(** [sorted(..., key=lambda x: x[1], reverse=True)]: stable, largest first. *)
Fixpoint insert_by_size (x : nat * nat) (l : list (nat * nat)) : list (nat * nat) :=
  match l with
  | [] => [x]
  | y :: l' => if snd x <? snd y then y :: insert_by_size x l' else x :: l
  end.

Definition sorted_by_size (l : list (nat * nat)) : list (nat * nat) :=
  fold_right insert_by_size [] l.

Fixpoint enumerate_from {A} (i : nat) (l : list A) : list (nat * A) :=
  match l with
  | [] => []
  | x :: l' => (i, x) :: enumerate_from (S i) l'
  end.

(** [sum(len(t) for t in message_texts)] *)
Definition total_chars (texts : list str) : nat :=
  fold_left (fun acc t => acc + length t) texts 0.

(** The failure the runner raises when nothing was extracted. *)
Inductive RuntimeError := NoReportContent (search_count fetch_count : nat).

(** [run_research_agent], from the first message of the stream on: the
    calls of [on_progress], and the report or the error raised. *)
Definition run_research_agent (stream : list Message)
    : list progress * (RuntimeError + str) :=
  let st := consume stream in
  let log1 :=
    emitted st ++
    [(ResearchDone (search_count st) (fetch_count st), py "phase");
     (Collected (length (message_texts st)) (total_chars (message_texts st))
        (length (result_text st)), py "phase")] in
  let log2 :=
    match message_texts st with
    | [] => log1
    | _ :: _ =>
        let sizes :=
          sorted_by_size
            (map (fun it => (fst it, length (snd it)))
                 (enumerate_from 0 (message_texts st))) in
        log1 ++ [(LargestMessages (firstn 5 sizes), py "phase")]
    end in
  let report := _extract_report (result_text st) (message_texts st) in
  if truthy (strip report)
  then (log2 ++ [(ExtractedReport (length report), py "phase")], inr report)
  else (log2, inl (NoReportContent (search_count st) (fetch_count st))).

End Agent.

(* ===================================================================== *)
(** * web.py: the streaming session manager *)
(* ===================================================================== *)

Module Web.
Import PyStr.

(** ** Server-sent events *)

Inductive json := JStr (s : str) | JInt (n : Z).

(** An event as [_sse] receives it; the wire text
    [event: <name>\ndata: <json>\n\n] is a function of this pair. *)
Record sse := { event : str; data : list (str * json) }.

Definition _sse (event : str) (data : list (str * json)) : sse :=
  {| event := event; data := data |}.

Fixpoint digits (u : Decimal.uint) : str :=
  (match u with
   | Decimal.Nil => []
   | Decimal.D0 u => 48 :: digits u | Decimal.D1 u => 49 :: digits u
   | Decimal.D2 u => 50 :: digits u | Decimal.D3 u => 51 :: digits u
   | Decimal.D4 u => 52 :: digits u | Decimal.D5 u => 53 :: digits u
   | Decimal.D6 u => 54 :: digits u | Decimal.D7 u => 55 :: digits u
   | Decimal.D8 u => 56 :: digits u | Decimal.D9 u => 57 :: digits u
   end)%N.

(** [str(n)] for an int, as an f-string formats it. *)
Definition str_of_int (n : Z) : str :=
  match n with
  | Z0 => py "0"
  | Zpos p => digits (Pos.to_uint p)
  | Zneg p => py "-" ++ digits (Pos.to_uint p)
  end.

(** ** Tasks and the session registry *)

(** An exception, with the text [str(e)] gives. *)
Inductive exn := Exception (message : str).

Definition str_of_exn (e : exn) : str :=
  match e with Exception message => message end.

(** How a task can be done. *)
Inductive completion :=
| Returned (value : str)
| Raised (e : exn)
| Cancelled.

(** An [asyncio.Task]: still running, with or without a cancellation
    request pending, or done. *)
Inductive task_state :=
| Pending (must_cancel : bool)
| Done (c : completion).

Definition done (t : task_state) : bool :=
  match t with Pending _ => false | Done _ => true end.

Definition cancelled (t : task_state) : bool :=
  match t with Done Cancelled => true | _ => false end.

(** [task.result()]: the value, or the exception it raises; asking a task
    that is not done raises [InvalidStateError]. *)
Inductive result_of :=
| Value (v : str)
| RaisesCancelledError
| Raises (e : exn).

Definition result (t : task_state) : result_of :=
  match t with
  | Pending _ => Raises (Exception (py "Result is not set."))
  | Done (Returned v) => Value v
  | Done (Raised e) => Raises e
  | Done Cancelled => RaisesCancelledError
  end.

(** [task.cancel()]: a request, which a task that is done ignores. *)
Definition cancel (t : task_state) : task_state :=
  match t with Pending _ => Pending true | Done _ => t end.

(** The process state the two endpoints share: the dict
    [_active_sessions], and the tasks it and the stream generators refer
    to, by handle. *)
Record world := {
  _active_sessions : gmap str nat;
  tasks : nat -> task_state;
  next_task : nat
}.

Definition with_sessions (w : world) (m : gmap str nat) : world :=
  {| _active_sessions := m; tasks := tasks w; next_task := next_task w |}.

Definition with_task (w : world) (h : nat) (t : task_state) : world :=
  {| _active_sessions := _active_sessions w; tasks := <[h := t]> (tasks w);
     next_task := next_task w |}.

(** [asyncio.create_task(...)] *)
Definition create_task (w : world) : nat * world :=
  let h := next_task w in
  (h, {| _active_sessions := _active_sessions w;
         tasks := <[h := Pending false]> (tasks w);
         next_task := S h |}).

(** ** The cancel endpoint *)

Inductive JSONResponse := Response (status session_id : str) (status_code : nat).

(** [cancel_research], from the parsed request body on. *)
Definition cancel_research (body : gmap str str) (w : world) : JSONResponse * world :=
  let session_id := default [] (body !! py "session_id") in
  let task := _active_sessions w !! session_id in
  let w := with_sessions w (delete session_id (_active_sessions w)) in
  match task with
  | Some h =>
      if negb (done (tasks w h))
      then (Response (py "cancelled") session_id 200,
            with_task w h (cancel (tasks w h)))
      else (Response (py "not_found") session_id 404, w)
  | None => (Response (py "not_found") session_id 404, w)
  end.

(** ** The stream endpoint *)

(** One turn of the polling loop, taken while the task is not done: what
    [wait_for(queue.get(), 1.0)] gave, and the clock read after it, in
    whole seconds. *)
Inductive poll :=
| QueueItem (message msg_type : str) (now : Z)
| TimeoutError (now : Z).

(** [render_pdf] is an external collaborator: it returns a path or raises. *)
Inductive render_result :=
| Rendered (name path : str)
| RenderFailed (e : exn).

(** What the surroundings of one stream do: the clock, the queue, the
    agent task, the renderer and the file system. *)
Record environment := {
  started_at : Z;
  polls : list poll;               (* the turns of the polling loop *)
  residual : list (str * str);     (* left in the queue when the task is done *)
  outcome : completion;            (* how the task got done *)
  render_pdf : render_result;
  write_text : option exn;         (* [md_fallback.write_text]: [Some e] raises *)
  count_pdf_pages : option Z       (* [None]: raised *)
}.

(** The arguments the agent run is started with. *)
Record agent_call := {
  call_topic : str;
  call_additional_instructions : str;
  call_max_turns : Z
}.

(** What the consumer of the generator sees: the events yielded, and the
    exception the generator ends with, if it does. *)
Record stream := {
  call : agent_call;
  events : list sse;
  raised : option exn
}.

Definition log (message type : str) : sse :=
  _sse (py "log") [(py "message", JStr message); (py "type", JStr type)].

Definition status_event (message : str) : sse :=
  _sse (py "status") [(py "message", JStr message)].

Definition STOPPED : sse :=
  _sse (py "cancelled") [(py "message", JStr (py "Research stopped by user."))].

Definition error_event (message : str) : sse :=
  _sse (py "error_event") [(py "message", JStr message)].

Definition complete (filename : str) (pages : json) (path : str) : sse :=
  _sse (py "complete")
    [(py "filename", JStr filename); (py "pages", pages); (py "path", JStr path)].

Definition CONVERTING : list sse :=
  [log (py "Converting to PDF...") (py "phase");
   status_event (py "Generating PDF report...")].

(** The loop [while not agent_task.done()]. *)
Fixpoint polling (started_at last_heartbeat : Z) (ps : list poll) : list sse :=
  match ps with
  | [] => []
  | QueueItem message msg_type now :: ps' =>
      log message msg_type :: status_event message
        :: polling started_at now ps'
  | TimeoutError now :: ps' =>
      if (now - last_heartbeat >=? 10)%Z then
        let elapsed := (now - started_at)%Z in
        let mins := (elapsed / 60)%Z in
        let secs := (elapsed mod 60)%Z in
        _sse (py "heartbeat")
          [(py "elapsed", JInt elapsed);
           (py "message",
            JStr (py "Working... (" ++ str_of_int mins ++ py "m "
                  ++ str_of_int secs ++ py "s)"))]
          :: polling started_at now ps'
      else polling started_at last_heartbeat ps'
  end.

(** The loop [while not queue.empty()]. *)
Definition draining (q : list (str * str)) : list sse :=
  map (fun it => log (fst it) (snd it)) q.

(** The rest of the [try] block, once the polling loop is left: the
    events it yields and the exception that escapes it, if one does. *)
Definition finishing (env : environment) (agent_task : task_state)
    : list sse * option exn :=
  if cancelled agent_task then ([STOPPED], None)
  else
    match result agent_task with
    | RaisesCancelledError => ([STOPPED], None)
    | Raises e => ([error_event (str_of_exn e)], None)
    | Value markdown_report =>
        match render_pdf env with
        | RenderFailed e =>
            match write_text env with
            | Some e' => (CONVERTING, Some e')
            | None =>
                (CONVERTING ++
                 [error_event (py "PDF generation failed: " ++ str_of_exn e
                               ++ py ". Markdown saved.")],
                 None)
            end
        | Rendered name path =>
            let pages :=
              match count_pdf_pages env with
              | Some n => JInt n
              | None => JStr (py "~")
              end in
            (CONVERTING ++
             [log (py "Report saved: " ++ name) (py "done");
              complete name pages path],
             None)
        end
    end.

(** The events yielded before the agent task is created. *)
Definition opening (topic prompt : str) (max_turns : Z) (session_id : str)
    : list sse :=
  [_sse (py "session") [(py "session_id", JStr session_id)];
   status_event (py "Researching: " ++ topic);
   log (py "Topic: " ++ topic) (py "phase");
   log (py "Max turns: " ++ str_of_int max_turns) (py "phase")]
  ++ (if truthy prompt
      then [log (py "Instructions: " ++ prompt) (py "phase")] else []).

(** [event_stream()], iterated to its end by the response.  Between its
    creation and the end of the polling loop the task gets done, the way
    the environment says. *)
Definition event_stream (topic prompt : str) (max_turns : Z) (session_id : str)
    (env : environment) (w : world) : stream * world :=
  let started := opening topic prompt max_turns session_id in
  let agent_call :=
    {| call_topic := topic; call_additional_instructions := prompt;
       call_max_turns := max_turns |} in
  let '(agent_task, w) := create_task w in
  let w := with_sessions w (<[session_id := agent_task]> (_active_sessions w)) in
  (* try: *)
  let running := polling (started_at env) (started_at env) (polls env) in
  let w := with_task w agent_task (Done (outcome env)) in
  let drained := draining (residual env) in
  let '(final, exc) := finishing env (tasks w agent_task) in
  (* finally: *)
  let w := with_sessions w (delete session_id (_active_sessions w)) in
  let w := if negb (done (tasks w agent_task))
           then with_task w agent_task (cancel (tasks w agent_task)) else w in
  ({| call := agent_call;
      events := started ++ running ++ drained ++ final;
      raised := exc |}, w).

(** [stream_research(topic, prompt, max_turns)]; the session id is the
    one [uuid4] gives. *)
Definition stream_research (topic prompt : str) (max_turns : Z) (session_id : str)
    (env : environment) (w : world) : stream * world :=
  let max_turns := Z.max 10 (Z.min 100 max_turns) in
  event_stream topic prompt max_turns session_id env w.

(** The events that end a stream. *)
Definition terminal (e : sse) : bool :=
  bool_decide (event e = py "complete")
  || bool_decide (event e = py "cancelled")
  || bool_decide (event e = py "error_event").

(** The last event is terminal and no other one is. *)
Definition ends_with_one_terminal (evs : list sse) : bool :=
  match rev evs with
  | [] => false
  | e :: before => terminal e && forallb (fun e' => negb (terminal e')) before
  end.

End Web.


(* ===================================================================== *)
(** * agent.py: building the task prompt *)
(* ===================================================================== *)

Module AgentPrompt.
Import PyStr.

(** [s.startswith(prefix)] *)
Fixpoint startswith (prefix s : str) : bool :=
  match prefix, s with
  | [], _ => true
  | _ :: _, [] => false
  | p :: prefix', c :: s' => (p =? c)%N && startswith prefix' s'
  end.

(** The scan of [s.replace(old, new)] for a non-empty [old], from left to
    right: at an occurrence of [old] the replacement is written and the
    rest of the occurrence is skipped, [skip] counting what is left of
    it. *)
Fixpoint replace_from (old new : str) (skip : nat) (s : str) : str :=
  match s with
  | [] => []
  | c :: s' =>
      match skip with
      | S skip' => replace_from old new skip' s'
      | 0 =>
          if startswith old s
          then new ++ replace_from old new (length old - 1) s'
          else c :: replace_from old new 0 s'
      end
  end.

(** [s.replace(old, new)]; an empty [old] matches before every character
    and at the end. *)
Definition replace (s old new : str) : str :=
  match old with
  | [] => new ++ flat_map (fun c => c :: new) s
  | _ :: _ => replace_from old new 0 s
  end.

(** The task prompt of [run_research_agent], from the template
    [_load_prompt] read. *)
Definition task_prompt (task_template topic additional_instructions : str) : str :=
  let extra :=
    if truthy (strip additional_instructions)
    then py "**Additional Instructions:** " ++ strip additional_instructions
    else [] in
  replace (replace task_template (py "{topic}") topic)
    (py "{additional_instructions}") extra.

End AgentPrompt.

(* ===================================================================== *)
(** * web.py: the wire format, the session of a stream, the fallback file *)
(* ===================================================================== *)

Module WebWire.
Import PyStr AgentPrompt Web.

(** One lower-case hexadecimal digit. *)
Definition hex_digit (n : N) : char :=
  (if n <? 10 then 48 + n else 87 + n)%N.

Definition BACKSLASH : char := 92%N.

(** The escape of a code unit: a backslash, [u] and four hexadecimal
    digits. *)
Definition u_escape (n : N) : str :=
  ([BACKSLASH; 117; hex_digit (n / 4096 mod 16); hex_digit (n / 256 mod 16);
    hex_digit (n / 16 mod 16); hex_digit (n mod 16)])%N.

(** What [json.dumps] writes for one character of a string
    ([ensure_ascii] is on): the quote, the backslash and the control
    characters newline, carriage return, tab, backspace and form feed have
    a two-character escape, the other characters outside the printable
    ASCII range are written with [u_escape], as a surrogate pair beyond
    the basic plane. *)
Definition escape_char (c : char) : str :=
  (if c =? 34 then [BACKSLASH; 34]
   else if c =? 92 then [BACKSLASH; BACKSLASH]
   else if c =? 10 then [BACKSLASH; 110]
   else if c =? 13 then [BACKSLASH; 114]
   else if c =? 9 then [BACKSLASH; 116]
   else if c =? 8 then [BACKSLASH; 98]
   else if c =? 12 then [BACKSLASH; 102]
   else if (32 <=? c) && (c <=? 126) then [c]
   else if c <? 65536 then u_escape c
   else let n := c - 65536 in
        u_escape (55296 + (n / 1024) mod 1024) ++ u_escape (56320 + n mod 1024))%N.

Definition json_string (s : str) : str :=
  [34%N] ++ flat_map escape_char s ++ [34%N].

Definition json_value (v : json) : str :=
  match v with
  | JStr s => json_string s
  | JInt n => str_of_int n
  end.

(** [json.dumps(data)] for a dict of strings and ints. *)
Definition json_dumps (data : list (str * json)) : str :=
  py "{"
  ++ join (py ", ")
       (map (fun kv => json_string (fst kv) ++ py ": " ++ json_value (snd kv)) data)
  ++ py "}".

(** The text [_sse] returns: [f"event: {event}\ndata: {json.dumps(data)}\n\n"]. *)
Definition wire (e : sse) : str :=
  py "event: " ++ event e ++ [NL] ++ py "data: " ++ json_dumps (data e) ++ [NL; NL].

(** The state of the process once [event_stream] has created its task
    and registered it under the session id, before the polling loop. *)
Definition start_session (session_id : str) (w : world) : nat * world :=
  let '(agent_task, w) := create_task w in
  (agent_task,
   with_sessions w (<[session_id := agent_task]> (_active_sessions w))).

(** [topic[:40].replace(' ', '_')], the stem of the Markdown fallback file
    of both front ends. *)
Definition fallback_stem (topic : str) : str :=
  replace (firstn 40 topic) [SP] (py "_").

(** The name of [md_fallback] in [event_stream]. *)
Definition md_fallback_name (topic : str) : str := fallback_stem topic ++ py ".md".

End WebWire.

(* ===================================================================== *)
(** * utils/config.py and cli.py *)
(* ===================================================================== *)

Module Config.
Import PyStr.

Definition API_KEY : str := py "ANTHROPIC_API_KEY".

(** [load_dotenv(path)], with the variables [path] defines when the file
    is there: a variable the environment already has is kept. *)
Definition load_dotenv (file : option (gmap str str)) (environ : gmap str str)
    : gmap str str :=
  match file with
  | Some variables => environ ∪ variables
  | None => environ
  end.

(** The [.env] files [load_config] can read: the one of the working
    directory, the one of the project root, and the one [load_dotenv()]
    finds by itself; [None] for a file that does not exist. *)
Record dotenv_files := {
  cwd_env : option (gmap str str);
  project_env : option (gmap str str);
  found_env : option (gmap str str)
}.

(** [load_config()]: the returned dict, and the environment it leaves. *)
Definition load_config (files : dotenv_files) (environ : gmap str str)
    : gmap str str * gmap str str :=
  let environ :=
    match cwd_env files with
    | Some variables => load_dotenv (Some variables) environ
    | None =>
        match project_env files with
        | Some variables => load_dotenv (Some variables) environ
        | None => load_dotenv (found_env files) environ
        end
    end in
  ({[ py "api_key" := default [] (environ !! API_KEY) ]}, environ).

(** [typer.Exit(code)] *)
Inductive Exit := ExitCode (code : nat).

(** [validate_config(config)]: [Some] for the exit it raises. *)
Definition validate_config (config : gmap str str) : option Exit :=
  if truthy (default [] (config !! py "api_key")) then None
  else Some (ExitCode 1).

End Config.

Module Cli.
Import PyStr Agent Web Config WebWire.

(** How the [research] command ends. *)
Inductive ending :=
| Saved (name path : str)         (* the report was rendered *)
| Exited (e : Exit)
| Uncaught (e : exn).

(** The name of [md_path] in [research]. *)
Definition md_path_name (topic : str) : str := fallback_stem topic ++ py "_report.md".

(** The [research] command, as far as its ending goes.  The console
    output is left out; the output directory is taken to exist or be
    makeable, and the agent runtime to yield its message stream to the
    end. *)
Definition research (files : dotenv_files) (environ : gmap str str)
    (stream : list Message) (render_pdf : render_result)
    (write_text : option exn) : ending :=
  let config := fst (load_config files environ) in
  match validate_config config with
  | Some e => Exited e
  | None =>
      match snd (run_research_agent stream) with
      | inl _ => Exited (ExitCode 1)
      | inr markdown_report =>
          match render_pdf with
          | RenderFailed _ =>
              match write_text with
              | Some e => Uncaught e
              | None => Exited (ExitCode 1)
              end
          | Rendered name path => Saved name path
          end
      end
  end.

End Cli.

(* ===================================================================== *)
(** * Vocabulary of the statements *)
(* ===================================================================== *)

Module Notions.
Import PyStr Re Agent Web AgentPrompt WebWire Config Cli.

(** ** Strings and matching *)

(** Empty or made of white space only: [not s.strip()]. *)
Definition blank (s : str) : bool := forallb isspace s.

(** A pattern that opens with [^#]. *)
Definition opens_with_hash (r : regex) : Prop :=
  exists r', r = Cat Bol (Cat (Lit HASH) r').

(** The character before the position reached after reading [read]. *)
Definition last_of (prev : option char) (read : str) : option char :=
  fold_left (fun _ c => Some c) read prev.

(** The loop of [.+], the way [matches] runs it. *)
Definition dot_loop (k : option char -> str -> bool)
    : nat -> option char -> str -> bool :=
  fix loop (fuel : nat) (prev : option char) (s : str) : bool :=
    match fuel with
    | 0 => false
    | S fuel' =>
        match s with
        | x :: s' =>
            negb (x =? NL)%N && (loop fuel' (Some x) s' || k (Some x) s')
        | [] => false
        end
    end.

(** [w'] is [w] up to the case folding of the flags. *)
Definition same_letters (fl : flags) (w w' : str) : Prop :=
  Forall2 (fun c x => lit_match fl c x = true) w w'.

(** ** Headings *)

(** A position at the start of a line: nothing before it, or a newline
    right before it. *)
Definition line_start (before : str) : Prop :=
  last_of None before = None \/ last_of None before = Some NL.

(** [text] has, at the start of a line, the marker [# ], then at least
    [gap_min] characters of the same line, then one of the report words,
    in any case. *)
Definition titled_heading (gap_min : nat) (text : str) : Prop :=
  exists before gap w w' rest,
    text = before ++ [HASH; SP] ++ gap ++ w' ++ rest /\
    line_start before /\
    gap_min <= length gap /\ ~ In NL gap /\
    In w REPORT_WORDS /\ same_letters MI w w'.

(** ** Streams of agent messages *)

(** The result strings of the terminal-result messages of a stream, in
    the order they arrive. *)
Fixpoint terminal_results (stream : list Message) : list str :=
  match stream with
  | [] => []
  | ResultMessage (Some r) :: stream' => r :: terminal_results stream'
  | _ :: stream' => terminal_results stream'
  end.

(** ** Sessions and event streams *)

(** The session id the endpoint reads from the request body. *)
Definition session_of (body : gmap str str) : str :=
  default [] (body !! py "session_id").

(** No event of the list is terminal. *)
Definition quiet (evs : list sse) : bool :=
  forallb (fun e => negb (terminal e)) evs.

(** The fallback file could not be written after the renderer failed. *)
Definition fallback_lost (env : environment) : bool :=
  match outcome env, render_pdf env, write_text env with
  | Returned _, RenderFailed _, Some _ => true
  | _, _, _ => false
  end.

(** ** Inputs of the examples *)

(** A terminal result for the witnesses: two heading lines and a body of
    a thousand characters. *)
Definition LONG_REPORT : str :=
  py "# Market Overview" ++ [NL] ++ py "## Summary" ++ [NL] ++ repeat 120%N 1000.

(** A report split over the last three of four messages. *)
Definition SPLIT_REPORT : list str :=
  [py "Found 3 sources..."; py "# Market Overview"; py "## Summary";
   repeat 120%N 1000].

(** A run that completes at once and renders. *)
Definition IDLE : environment :=
  {| started_at := 0; polls := []; residual := [];
     outcome := Returned (py "# Report");
     render_pdf := Rendered (py "report.pdf") (py "output/report.pdf");
     write_text := None; count_pdf_pages := Some 1%Z |}.

(** A process with no session. *)
Definition EMPTY : world :=
  {| _active_sessions := ∅; tasks := fun _ => Done Cancelled; next_task := 0 |}.

(** A cancel request, and a process in which its session is running. *)
Definition CANCEL_BODY : gmap str str := {[ py "session_id" := py "1f0c9a2e" ]}.

Definition ONE_SESSION : world :=
  {| _active_sessions := {[ py "1f0c9a2e" := 0 ]};
     tasks := fun _ => Pending false; next_task := 1 |}.

(** A run of the topic [AI/ML]: the agent returns a report, the renderer
    fails, and the fallback file [output/AI/ML.md] cannot be written
    because its directory does not exist. *)
Definition FALLBACK_LOST : environment :=
  {| started_at := 0;
     polls := [QueueItem (py "Agent initialized, starting research...")
                 (py "phase") 1;
               TimeoutError 12];
     residual := [];
     outcome := Returned (py "# AI/ML Market Report");
     render_pdf := RenderFailed (Exception (py "cannot load library"));
     write_text :=
       Some (Exception (py "[Errno 2] No such file or directory"));
     count_pdf_pages := None |}.

(** ** Vocabulary of the further properties *)

(** [text] has, at the start of a line, [marker], a space and one more
    character of the same line: a heading line with a title. *)
Definition heading_line (marker : str) (text : str) : Prop :=
  exists before c rest,
    text = before ++ marker ++ [SP; c] ++ rest /\
    line_start before /\ c <> NL.

(** The text blocks of one assistant message, in order. *)
Fixpoint texts_of (content : list ContentBlock) : list str :=
  match content with
  | [] => []
  | TextBlock text :: content' => text :: texts_of content'
  | _ :: content' => texts_of content'
  end.

(** The names of the tools one assistant message uses, in order. *)
Fixpoint tools_of (content : list ContentBlock) : list str :=
  match content with
  | [] => []
  | ToolUseBlock name _ :: content' => name :: tools_of content'
  | _ :: content' => tools_of content'
  end.

(** The entry a message adds to the message texts, if it adds one. *)
Definition message_text (message : Message) : list str :=
  match message with
  | AssistantMessage content =>
      match texts_of content with
      | [] => []
      | parts => [join [NL] parts]
      end
  | _ => []
  end.

(** The tools a whole stream uses, in order. *)
Definition tool_uses (stream : list Message) : list str :=
  flat_map (fun message =>
    match message with
    | AssistantMessage content => tools_of content
    | _ => []
    end) stream.

(** How often [name] is used. *)
Definition uses_of (name : str) (tools : list str) : nat :=
  length (List.filter (fun t => bool_decide (t = name)) tools).

(** The running counts the search and the fetch progress messages carry. *)
Definition search_numbers (log : list progress) : list nat :=
  flat_map (fun p => match fst p with Searching n _ => [n] | _ => [] end) log.

Definition fetch_numbers (log : list progress) : list nat :=
  flat_map (fun p => match fst p with Reading n _ => [n] | _ => [] end) log.

(** The local state [st'] is [st] after the tool uses [tools]: the two
    counters have grown by the number of searches and of fetches, and the
    progress messages added for them carry the counts in sequence. *)
Definition counted (st st' : locals) (tools : list str) : Prop :=
  search_count st' = search_count st + uses_of (py "WebSearch") tools /\
  fetch_count st' = fetch_count st + uses_of (py "WebFetch") tools /\
  search_numbers (emitted st')
  = search_numbers (emitted st)
    ++ seq (S (search_count st)) (uses_of (py "WebSearch") tools) /\
  fetch_numbers (emitted st')
  = fetch_numbers (emitted st)
    ++ seq (S (fetch_count st)) (uses_of (py "WebFetch") tools).

(** A message list whose joined text has a report heading after some
    reasoning, and nothing that looks like a whole report. *)
Definition NOTES_THEN_REPORT : list str :=
  [py "Let me think." ++ [NL] ++ py "# EV Market Report" ++ [NL]
   ++ repeat 120%N 400].

(** The opening brace of a placeholder. *)
Definition BRACE : char := 123%N.

(** What the task prompt says about the additional instructions. *)
Definition instructions_line (additional_instructions : str) : str :=
  if blank additional_instructions then []
  else py "**Additional Instructions:** " ++ strip additional_instructions.

(** A template with one placeholder of each kind, the topic first. *)
Definition template (pre mid post : str) : str :=
  pre ++ py "{topic}" ++ mid ++ py "{additional_instructions}" ++ post.

(** The queue items of the turns of the polling loop, in order. *)
Fixpoint queue_items (ps : list poll) : list (str * str) :=
  match ps with
  | [] => []
  | QueueItem message msg_type _ :: ps' => (message, msg_type) :: queue_items ps'
  | TimeoutError _ :: ps' => queue_items ps'
  end.

Definition is_heartbeat (e : sse) : bool :=
  bool_decide (event e = py "heartbeat").





(** A printable ASCII character. *)
Definition printable (c : char) : Prop := (32 <= c <= 126)%N.


(** The [.env] file [load_config] reads: the first that exists. *)
Definition first_existing (files : dotenv_files) : option (gmap str str) :=
  match cwd_env files with
  | Some variables => Some variables
  | None =>
      match project_env files with
      | Some variables => Some variables
      | None => found_env files
      end
  end.

(** The event a stream ends with, by the way the task got done and the
    renderer answered. *)
Definition terminal_event (env : environment) : sse :=
  match outcome env with
  | Cancelled => STOPPED
  | Raised e => error_event (str_of_exn e)
  | Returned _ =>
      match render_pdf env with
      | Rendered name path =>
          complete name
            (match count_pdf_pages env with
             | Some n => JInt n
             | None => JStr (py "~")
             end) path
      | RenderFailed e =>
          error_event (py "PDF generation failed: " ++ str_of_exn e
                       ++ py ". Markdown saved.")
      end
  end.

(** A run whose rendering fails and whose fallback file is written. *)
Definition RENDER_FAILS : environment :=
  {| started_at := 0; polls := []; residual := [(py "done", py "phase")];
     outcome := Returned (py "# Report");
     render_pdf := RenderFailed (Exception (py "no fonts"));
     write_text := None; count_pdf_pages := None |}.

(** The entries of the runner's [Largest messages] progress message. *)
Definition largest_messages (texts : list str) : list (nat * nat) :=
  firstn 5
    (sorted_by_size
       (map (fun it => (fst it, length (snd it))) (enumerate_from 0 texts))).

(** Largest first: no entry is larger than one before it. *)
Fixpoint descending (l : list (nat * nat)) : Prop :=
  match l with
  | [] => True
  | x :: l' => (forall y, In y l' -> snd y <= snd x) /\ descending l'
  end.

End Notions.

(* ===================================================================== *)
(** * Facts about strings and matching *)
(* ===================================================================== *)

Module StrFacts.
Import PyStr Re Agent Notions.

Lemma lstrip_nil_iff s : lstrip s = [] <-> blank s = true.
Proof.
  induction s as [|c s IH]; simpl; [tauto|].
  destruct (isspace c); simpl; [exact IH|].
  split; discriminate.
Qed.

Lemma blank_lstrip s : blank (lstrip s) = blank s.
Proof.
  induction s as [|c s IH]; simpl; [reflexivity|].
  destruct (isspace c) eqn:E; simpl; [exact IH|].
  now rewrite E.
Qed.

Lemma blank_app s t : blank (s ++ t) = blank s && blank t.
Proof. apply forallb_app. Qed.

Lemma blank_rev s : blank (rev s) = blank s.
Proof.
  induction s as [|c s IH]; simpl; [reflexivity|].
  rewrite blank_app, IH. simpl.
  rewrite andb_true_r. apply andb_comm.
Qed.

Lemma rev_nil_iff {A} (l : list A) : rev l = [] <-> l = [].
Proof.
  split; intros H; [|now subst].
  apply (f_equal (@rev A)) in H. now rewrite rev_involutive in H.
Qed.

Lemma strip_nil_iff s : strip s = [] <-> blank s = true.
Proof.
  unfold strip, rstrip.
  etransitivity; [apply rev_nil_iff|].
  etransitivity; [apply lstrip_nil_iff|].
  now rewrite blank_rev, blank_lstrip.
Qed.

Lemma truthy_true_iff s : truthy s = true <-> s <> [].
Proof. destruct s; simpl; split; congruence. Qed.

Lemma truthy_false_iff s : truthy s = false <-> s = [].
Proof. destruct s; simpl; split; congruence. Qed.

Lemma truthy_length s n : n < length s -> truthy s = true.
Proof. destruct s; simpl; [lia | reflexivity]. Qed.

Lemma blank_join (l : list str) : blank (join BLANK l) = forallb blank l.
Proof.
  induction l as [|p [|q l] IH]; simpl in *.
  - reflexivity.
  - now rewrite andb_true_r.
  - rewrite blank_app. f_equal. exact IH.
Qed.

Lemma blank_spec s : blank s = true <-> forall c, In c s -> isspace c = true.
Proof. unfold blank. apply List.forallb_forall. Qed.

Lemma hash_not_blank s : In HASH s -> blank s = false.
Proof.
  intros H. destruct (blank s) eqn:E; [|reflexivity].
  rewrite blank_spec in E. now apply E in H.
Qed.

(** ** Equations of the matcher *)

Lemma matches_Cat fl r1 r2 p s k :
  matches fl (Cat r1 r2) p s k
  = matches fl r1 p s (fun p' s' => matches fl r2 p' s' k).
Proof. reflexivity. Qed.

Lemma matches_Bol fl p s k :
  matches fl Bol p s k = at_bol fl p && k p s.
Proof. reflexivity. Qed.

Lemma matches_Lit fl c p s k :
  matches fl (Lit c) p s k
  = match s with
    | x :: s' => lit_match fl c x && k (Some x) s'
    | [] => false
    end.
Proof. reflexivity. Qed.

Lemma matches_Alt fl r1 r2 p s k :
  matches fl (Alt r1 r2) p s k = matches fl r1 p s k || matches fl r2 p s k.
Proof. reflexivity. Qed.

(** Turn the boolean tests on code points among the hypotheses into
    propositions and let [lia] finish. *)
Ltac code_points :=
  repeat match goal with
    | H : (_ && _) = true |- _ => apply andb_true_iff in H as [? ?]
    | H : (_ || _) = false |- _ => apply orb_false_iff in H as [? ?]
    | H : (_ && _) = false |- _ => apply andb_false_iff in H as [?|?]
    | H : (_ || _) = true |- _ => apply orb_true_iff in H as [?|?]
    | H : negb _ = true |- _ => apply negb_true_iff in H
    | H : negb _ = false |- _ => apply negb_false_iff in H
    | H : (_ <=? _)%N = true |- _ => apply N.leb_le in H
    | H : (_ <=? _)%N = false |- _ => apply N.leb_gt in H
    | H : (_ =? _)%N = true |- _ => apply N.eqb_eq in H
    | H : (_ =? _)%N = false |- _ => apply N.eqb_neq in H
    end;
  try lia; try discriminate.

Ltac case_if :=
  match goal with
  | |- context [if ?b then _ else _] => destruct b eqn:?
  end.

Lemma lit_match_HASH fl x : lit_match fl HASH x = true -> x = HASH.
Proof.
  unfold lit_match, HASH. destruct (IGNORECASE fl).
  - cbn. unfold lower. rewrite orb_false_r.
    repeat case_if; intros H; code_points.
  - intros H. apply N.eqb_eq in H. now subst.
Qed.

Lemma match_here_hash fl r prev s :
  opens_with_hash r -> match_here fl r prev s = true ->
  at_bol fl prev = true /\ exists rest, s = HASH :: rest.
Proof.
  intros [r' ->]. unfold match_here.
  rewrite matches_Cat, matches_Bol, matches_Cat, matches_Lit.
  intros H. apply andb_true_iff in H as [Hb H]. split; [exact Hb|].
  destruct s as [|x s']; [discriminate|].
  apply andb_true_iff in H as [H _].
  apply lit_match_HASH in H. subst. now exists s'.
Qed.

Lemma search_from_hash fl r :
  opens_with_hash r ->
  forall s pos prev p, search_from fl r pos prev s = Some p -> In HASH s.
Proof.
  intros Hr s. induction s as [|x s IH]; intros pos prev p; simpl.
  - destruct (match_here fl r prev []) eqn:E; [|discriminate].
    apply (match_here_hash _ _ _ _ Hr) in E as [_ [rest E]]. discriminate.
  - destruct (match_here fl r prev (x :: s)) eqn:E.
    + apply (match_here_hash _ _ _ _ Hr) in E as [_ [rest E]].
      injection E as -> _. now left.
    + intros H. right. eapply IH, H.
Qed.

Lemma H1_opens : opens_with_hash H1_RE.
Proof. now eexists. Qed.

Lemma H2_opens : opens_with_hash H2_RE.
Proof. now eexists. Qed.

Lemma REPORT_HEADING_opens : opens_with_hash REPORT_HEADING_RE.
Proof. now eexists. Qed.

Lemma search_hash r text fl p :
  opens_with_hash r -> search r text fl = Some p -> In HASH text.
Proof. intros Hr. apply search_from_hash, Hr. Qed.

Lemma search_blank r text fl :
  opens_with_hash r -> blank text = true -> search r text fl = None.
Proof.
  intros Hr Hb. destruct (search r text fl) eqn:E; [|reflexivity].
  apply (search_hash _ _ _ _ Hr), hash_not_blank in E. congruence.
Qed.

Lemma is_report_text_inv text n :
  _is_report_text text n = true ->
  In HASH text /\ n < length text.
Proof.
  unfold _is_report_text. intros H.
  apply andb_true_iff in H as [H Hlen].
  apply andb_true_iff in H as [H1 _].
  apply Nat.ltb_lt in Hlen. split; [|exact Hlen].
  destruct (search H1_RE text M) eqn:E; [|discriminate].
  eapply search_hash, E. apply H1_opens.
Qed.

Lemma is_report_text_strip text n :
  _is_report_text text n = true -> strip text <> [].
Proof.
  intros H. apply is_report_text_inv in H as [H _].
  rewrite strip_nil_iff. apply hash_not_blank in H. congruence.
Qed.

Lemma is_report_text_blank text n :
  blank text = true -> _is_report_text text n = false.
Proof.
  intros Hb. unfold _is_report_text.
  now rewrite (search_blank _ _ _ H1_opens Hb).
Qed.

Lemma for_return_Some {A B} (l : list A) (body : A -> option B) v :
  for_return l body = Some v -> exists x, In x l /\ body x = Some v.
Proof.
  induction l as [|x l IH]; simpl; [discriminate|].
  destruct (body x) eqn:E.
  - intros [= ->]. exists x. auto.
  - intros H. destruct (IH H) as [y [Hy Hb]]. exists y. auto.
Qed.

Lemma for_return_None {A B} (l : list A) (body : A -> option B) :
  (forall x, In x l -> body x = None) -> for_return l body = None.
Proof.
  induction l as [|x l IH]; simpl; [reflexivity|].
  intros H. rewrite (H x) by now left. apply IH. intros y Hy. apply H. now right.
Qed.

End StrFacts.

(* ===================================================================== *)
(** * The report extractor *)
(* ===================================================================== *)

Module ExtractProps.
Import PyStr Re Agent Notions StrFacts.

(** ** What each strategy returns is not empty *)

Lemma strategy1_nonempty rt r : strategy1 rt = Some r -> r <> [].
Proof.
  unfold strategy1.
  destruct (truthy rt && _is_report_text rt 1000) eqn:E; [|discriminate].
  intros [= <-]. apply andb_true_iff in E as [_ E].
  eapply is_report_text_strip, E.
Qed.

Lemma single_message_nonempty ms n r : single_message ms n = Some r -> r <> [].
Proof.
  unfold single_message. intros H.
  apply for_return_Some in H as [m [_ H]].
  destruct (_is_report_text m n) eqn:E; [|discriminate].
  injection H as <-. eapply is_report_text_strip, E.
Qed.

Lemma trailing_window_nonempty ms n r : trailing_window ms n = Some r -> r <> [].
Proof.
  unfold trailing_window. intros H.
  apply for_return_Some in H as [k [_ H]]. cbv zeta in H.
  destruct (_is_report_text _ n) eqn:E; [|discriminate].
  injection H as <-. eapply is_report_text_strip, E.
Qed.

Lemma strategy4_nonempty rt ms r : strategy4 rt ms = Some r -> r <> [].
Proof.
  unfold strategy4. cbv zeta.
  destruct (match search REPORT_HEADING_RE (full_text rt ms) MI with
            | Some _ => _ | None => _ end) as [start|]; [|discriminate].
  destruct (300 <? length _) eqn:E; [|discriminate].
  intros [= <-] Hnil. rewrite Hnil in E. discriminate.
Qed.

Lemma strategy5_nonempty rt ms r : strategy5 rt ms = Some r -> r <> [].
Proof.
  unfold strategy5.
  destruct (truthy rt && (200 <? length rt)); [|discriminate].
  intros H. apply for_return_Some in H as [k [_ H]]. cbv zeta in H.
  destruct (_is_report_text _ 500) eqn:E; [|discriminate].
  injection H as <-. eapply is_report_text_strip, E.
Qed.

(** ** On blank input no strategy returns *)

Lemma forallb_skipn {A} (P : A -> bool) n (l : list A) :
  forallb P l = true -> forallb P (skipn n l) = true.
Proof.
  revert l. induction n as [|n IH]; intros [|x l]; simpl; auto.
  intros H. apply andb_true_iff in H as [_ H]. auto.
Qed.

Lemma forallb_slice_from {A} (P : A -> bool) i (l : list A) :
  forallb P l = true -> forallb P (slice_from i l) = true.
Proof. unfold slice_from. destruct (i <? 0)%Z; apply forallb_skipn. Qed.

Lemma single_message_blank ms n :
  forallb blank ms = true -> single_message ms n = None.
Proof.
  intros Hb. unfold single_message. apply for_return_None.
  intros m Hm. apply in_rev in Hm.
  rewrite List.forallb_forall in Hb.
  now rewrite is_report_text_blank by auto.
Qed.

Lemma trailing_window_blank ms n :
  forallb blank ms = true -> trailing_window ms n = None.
Proof.
  intros Hb. unfold trailing_window. apply for_return_None.
  intros k _. cbv zeta.
  rewrite is_report_text_blank; [reflexivity|].
  rewrite blank_join. now apply forallb_slice_from.
Qed.

Lemma full_text_nil ms : full_text [] ms = join BLANK ms.
Proof. reflexivity. Qed.

Lemma strategy4_blank ms :
  forallb blank ms = true -> strategy4 [] ms = None.
Proof.
  intros Hb. unfold strategy4. cbv zeta. rewrite full_text_nil.
  assert (Hj : blank (join BLANK ms) = true) by now rewrite blank_join.
  rewrite (search_blank _ _ _ REPORT_HEADING_opens Hj).
  now rewrite (search_blank _ _ _ H1_opens Hj).
Qed.

(** ** When the result is empty *)

Lemma extract_report_nil_iff rt ms :
  _extract_report rt ms = [] <-> rt = [] /\ forallb blank ms = true.
Proof.
  split.
  - unfold _extract_report.
    destruct (strategy1 rt) eqn:E1;
      [intros ->; now apply strategy1_nonempty in E1|].
    destruct (single_message ms 1000) eqn:E2;
      [intros ->; now apply single_message_nonempty in E2|].
    destruct (trailing_window ms 1000) eqn:E3;
      [intros ->; now apply trailing_window_nonempty in E3|].
    destruct (strategy4 rt ms) eqn:E4;
      [intros ->; now apply strategy4_nonempty in E4|].
    destruct (strategy5 rt ms) eqn:E5;
      [intros ->; now apply strategy5_nonempty in E5|].
    destruct (single_message ms 500) eqn:E6;
      [intros ->; now apply single_message_nonempty in E6|].
    destruct (trailing_window ms 500) eqn:E7;
      [intros ->; now apply trailing_window_nonempty in E7|].
    unfold last_resort.
    destruct (truthy (strip (full_text rt ms))) eqn:Et.
    + intros H. rewrite H in Et. discriminate.
    + intros ->. split; [reflexivity|].
      apply truthy_false_iff, strip_nil_iff in Et.
      now rewrite full_text_nil, blank_join in Et.
  - intros [-> Hb]. unfold _extract_report.
    replace (strategy1 []) with (@None str) by reflexivity.
    rewrite !single_message_blank, !trailing_window_blank by exact Hb.
    rewrite strategy4_blank by exact Hb.
    replace (strategy5 [] ms) with (@None str) by reflexivity.
    unfold last_resort.
    assert (Hs : strip (full_text [] ms) = []).
    { apply strip_nil_iff. now rewrite full_text_nil, blank_join. }
    now rewrite Hs.
Qed.

Lemma forallb_blank_spec (ms : list str) :
  forallb blank ms = true <->
  forall m, In m ms -> forall c, In c m -> isspace c = true.
Proof.
  rewrite List.forallb_forall. split; intros H m Hm.
  - now apply blank_spec, H.
  - now apply blank_spec, H.
Qed.

(** ** Strategy 1 *)

(** C3. When the terminal result looks like a report at threshold 1000
    (a line matching [^# .+], a line matching [^## .+], more than 1000
    characters), [_extract_report] returns it stripped, whatever the
    messages are: strategy 1 decides before any other strategy is tried. *)
Theorem extract_terminal_report (result_text : str) (message_texts : list str) :
  _is_report_text result_text 1000 = true ->
  _extract_report result_text message_texts = strip result_text.
Proof.
  intros H. unfold _extract_report, strategy1.
  destruct (is_report_text_inv _ _ H) as [_ Hlen].
  now rewrite (truthy_length _ _ Hlen), H.
Qed.

Lemma extract_terminal_report_witness :
  _extract_report LONG_REPORT [py "Searching for data..."; LONG_REPORT]
  = strip LONG_REPORT.
Proof.
  apply (extract_terminal_report LONG_REPORT
           [py "Searching for data..."; LONG_REPORT]).
  vm_compute. reflexivity.
Defined.

(** ** Strategy 3 *)

Lemma last_n_all n (ms : list str) : length ms <= n -> 0 < n -> last_n n ms = ms.
Proof.
  intros Hle Hn. unfold last_n, slice_from.
  destruct (- Z.of_nat n <? 0)%Z eqn:E; [|apply Z.ltb_ge in E; lia].
  replace (Z.to_nat _) with 0 by lia. reflexivity.
Qed.

Lemma range_2_3 k : 3 <= k -> exists rest, range 2 (Nat.min 8 (k + 1)) = 2 :: 3 :: rest.
Proof.
  intros Hk. unfold range.
  destruct (Nat.min 8 (k + 1) - 2) as [|[|d]] eqn:E; [lia|lia|].
  simpl. eauto.
Qed.

(** C4. When neither the terminal result nor any single message looks
    like a report at threshold 1000, the last two messages joined by a
    blank line do not either, and the last three joined by a blank line
    do, [_extract_report] returns that three-message join, stripped: the
    windows are tried from size 2 upward and the first that qualifies
    wins. *)
Theorem extract_three_message_window (result_text : str) (message_texts : list str) :
  _is_report_text result_text 1000 = false ->
  (forall m, In m message_texts -> _is_report_text m 1000 = false) ->
  _is_report_text (join BLANK (last_n 2 message_texts)) 1000 = false ->
  _is_report_text (join BLANK (last_n 3 message_texts)) 1000 = true ->
  _extract_report result_text message_texts
  = strip (join BLANK (last_n 3 message_texts)).
Proof.
  intros Hr Hm H2 H3.
  assert (Hlen : 3 <= length message_texts).
  { destruct (le_lt_dec 3 (length message_texts)) as [|Hlt]; [assumption|].
    rewrite (last_n_all 2), <- (last_n_all 3 message_texts) in H2 by lia.
    congruence. }
  unfold _extract_report, strategy1. rewrite Hr, andb_false_r.
  assert (Hs : single_message message_texts 1000 = None).
  { unfold single_message. apply for_return_None.
    intros m Hin. apply in_rev in Hin. now rewrite (Hm m Hin). }
  rewrite Hs. unfold trailing_window.
  destruct (range_2_3 _ Hlen) as [rest ->].
  simpl for_return. now rewrite H2, H3.
Qed.

Lemma extract_three_message_window_witness :
  _extract_report [] SPLIT_REPORT = strip (join BLANK (last_n 3 SPLIT_REPORT)).
Proof.
  apply (extract_three_message_window [] SPLIT_REPORT).
  - vm_compute. reflexivity.
  - intros m Hm. simpl in Hm.
    repeat (destruct Hm as [<-|Hm]; [vm_compute; reflexivity|]).
    destruct Hm.
  - vm_compute. reflexivity.
  - vm_compute. reflexivity.
Defined.

(** ** The empty result *)

(** C9. With an empty terminal result and no message the extractor
    returns the empty string. *)
Theorem extract_nothing : _extract_report [] [] = [].
Proof. reflexivity. Qed.

Lemma extract_nonempty_result rt ms : rt <> [] -> _extract_report rt ms <> [].
Proof. intros H E. apply extract_report_nil_iff in E as [E _]. contradiction. Qed.

(** C10. [_extract_report] returns the empty string exactly when the
    terminal result is the empty string and every message is empty or
    made of white space only.  So a terminal result that is not empty,
    be it white space only, gives a result that is not empty; and the
    result can be empty with a message list that is not, as for one
    message of white space with an empty terminal result. *)
Theorem extract_empty_iff (result_text : str) (message_texts : list str) :
  (_extract_report result_text message_texts = [] <->
   result_text = [] /\
   forall m, In m message_texts -> forall c, In c m -> isspace c = true) /\
  (result_text <> [] -> _extract_report result_text message_texts <> []) /\
  _extract_report [SP] message_texts <> [] /\
  _extract_report [] [[SP]] = [].
Proof.
  split; [|split; [|split]].
  - rewrite extract_report_nil_iff, forallb_blank_spec. reflexivity.
  - apply extract_nonempty_result.
  - now apply extract_nonempty_result.
  - reflexivity.
Qed.

Lemma extract_empty_iff_witness :
  _extract_report [] [[SP]; [NL; 9%N]] = [].
Proof.
  apply (proj2 (proj1 (extract_empty_iff [] [[SP]; [NL; 9%N]]))).
  split; [reflexivity|].
  intros m Hm c Hc. simpl in Hm.
  destruct Hm as [<-|[<-|[]]]; simpl in Hc.
  - destruct Hc as [<-|[]]. reflexivity.
  - destruct Hc as [<-|[<-|[]]]; reflexivity.
Defined.

Example extract_whitespace_result : _extract_report [SP] [[SP]] = [SP].
Proof. reflexivity. Qed.

(** C1, as the specification words it, fails: a message that is not
    empty but holds white space only, with an empty terminal result, is
    an input that is not empty for which the extractor returns the empty
    string. *)
Lemma extract_nonempty_input_counterexample :
  ~ ((truthy [] = true \/ exists m, In m [[SP]] /\ truthy m = true) ->
     _extract_report [] [[SP]] <> []).
Proof.
  intros H. apply H; [|reflexivity].
  right. exists [SP]. split; [now left | reflexivity].
Qed.

(** C1, amended. When the terminal result is not empty, or some message
    holds a character that is not white space, the extractor returns a
    string that is not empty. *)
Theorem extract_nonempty_output (result_text : str) (message_texts : list str) :
  (result_text <> [] \/
   exists m c, In m message_texts /\ In c m /\ isspace c = false) ->
  _extract_report result_text message_texts <> [].
Proof.
  intros H E. apply extract_report_nil_iff in E as [Er Em].
  rewrite forallb_blank_spec in Em.
  destruct H as [H|[m [c [Hm [Hc Hs]]]]]; [contradiction|].
  rewrite (Em m Hm c Hc) in Hs. discriminate.
Qed.

Lemma extract_nonempty_output_witness :
  _extract_report [] [[SP]; py "Found 3 sources..."] <> [].
Proof.
  apply (extract_nonempty_output [] [[SP]; py "Found 3 sources..."]).
  right. exists (py "Found 3 sources..."), 70%N.
  split; [right; now left|]. split; [now left | reflexivity].
Defined.

End ExtractProps.

(* ===================================================================== *)
(** * Report-style headings *)
(* ===================================================================== *)

Module HeadingProps.
Import PyStr Re Agent Notions StrFacts.

Lemma last_of_app prev s t : last_of prev (s ++ t) = last_of (last_of prev s) t.
Proof. apply fold_left_app. Qed.

(** ** The search is a scan for a position where the pattern matches *)

Lemma search_from_found fl r s : forall pos prev,
  found (search_from fl r pos prev s) = true <->
  exists before after,
    s = before ++ after /\ match_here fl r (last_of prev before) after = true.
Proof.
  induction s as [|x s IH]; intros pos prev; simpl.
  - destruct (match_here fl r prev []) eqn:E; simpl.
    + split; [intros _|reflexivity]. now exists [], [].
    + split; [discriminate|]. intros [before [after [Hs Hm]]].
      symmetry in Hs. apply app_eq_nil in Hs as [-> ->]. simpl in Hm. congruence.
  - destruct (match_here fl r prev (x :: s)) eqn:E; simpl.
    + split; [intros _|reflexivity]. now exists [], (x :: s).
    + rewrite IH. split.
      * intros [before [after [-> Hm]]]. now exists (x :: before), after.
      * intros [[|y before] [after [Hs Hm]]]; simpl in *.
        -- subst after. congruence.
        -- injection Hs as <- ->. now exists before, after.
Qed.

(** ** [.+] reads a non-empty run of characters of one line *)

Lemma matches_Plus_Dot fl p s k :
  matches fl (Plus Dot) p s k = dot_loop k (S (length s)) p s.
Proof. reflexivity. Qed.

Lemma dot_loop_spec k fuel : forall prev s,
  dot_loop k fuel prev s = true <->
  exists gap rest,
    s = gap ++ rest /\ gap <> [] /\ length gap <= fuel /\ ~ In NL gap /\
    k (last_of prev gap) rest = true.
Proof.
  induction fuel as [|fuel IH]; intros prev s; simpl.
  - split; [discriminate|].
    intros [[|c gap] [rest [_ [Hne [Hlen _]]]]]; [congruence | simpl in Hlen; lia].
  - destruct s as [|x s].
    + split; [discriminate|].
      intros [[|c gap] [rest [Hs [Hne _]]]]; [congruence | discriminate].
    + rewrite andb_true_iff, orb_true_iff, IH, negb_true_iff, N.eqb_neq. split.
      * intros [Hx [[gap [rest [-> [Hne [Hlen [Hnl Hk]]]]]]|Hk]].
        -- exists (x :: gap), rest.
           split; [reflexivity|]. split; [discriminate|].
           split; [simpl; lia|]. split; [|exact Hk].
           intros [H|H]; [congruence | contradiction].
        -- exists [x], s.
           split; [reflexivity|]. split; [discriminate|].
           split; [simpl; lia|]. split; [|exact Hk].
           intros [H|[]]. congruence.
      * intros [[|c gap] [rest [Hs [Hne [Hlen [Hnl Hk]]]]]]; [congruence|].
        simpl in Hs, Hlen, Hk. injection Hs as <- ->.
        split; [intros ->; apply Hnl; now left|].
        destruct gap as [|d gap]; [right; exact Hk|].
        left. exists (d :: gap), rest.
        split; [reflexivity|]. split; [discriminate|].
        split; [simpl in *; lia|]. split; [|exact Hk].
        intros H. apply Hnl. now right.
Qed.

Lemma matches_Plus_Dot_spec fl k prev s :
  matches fl (Plus Dot) prev s k = true <->
  exists gap rest,
    s = gap ++ rest /\ gap <> [] /\ ~ In NL gap /\
    k (last_of prev gap) rest = true.
Proof.
  rewrite matches_Plus_Dot, dot_loop_spec. split.
  - intros [gap [rest [Hs [Hne [_ H]]]]]. now exists gap, rest.
  - intros [gap [rest [Hs [Hne H]]]]. exists gap, rest.
    repeat split; try easy. subst s. rewrite length_app. lia.
Qed.

(** ** A literal word reads its letters, up to case *)

Lemma matches_word_spec fl k w : forall prev s,
  matches fl (word w) prev s k = true <->
  exists w' rest,
    s = w' ++ rest /\ same_letters fl w w' /\ k (last_of prev w') rest = true.
Proof.
  induction w as [|c w IH]; intros prev s; simpl.
  - split.
    + intros H. exists [], s. repeat split; [constructor | exact H].
    + intros [w' [rest [-> [Hw Hk]]]]. inversion Hw; subst. exact Hk.
  - destruct s as [|x s].
    + split; [discriminate|].
      intros [w' [rest [Hs [Hw _]]]]. inversion Hw; subst. discriminate.
    + rewrite andb_true_iff, IH. split.
      * intros [Hc [w' [rest [-> [Hw Hk]]]]].
        exists (x :: w'), rest. repeat split; [now constructor | exact Hk].
      * intros [w' [rest [Hs [Hw Hk]]]]. inversion Hw as [|? y ? w'' Hc Hw']; subst.
        simpl in Hs. injection Hs as <- ->. split; [exact Hc|].
        now exists w'', rest.
Qed.

Lemma matches_alts_words fl k prev s (ws : list str) :
  ws <> [] ->
  matches fl (alts (map word ws)) prev s k
  = existsb (fun w => matches fl (word w) prev s k) ws.
Proof.
  induction ws as [|w [|w2 ws] IH]; intros Hne; [congruence|..].
  - cbn [map alts existsb]. now rewrite orb_false_r.
  - change (alts (map word (w :: w2 :: ws)))
      with (Alt (word w) (alts (map word (w2 :: ws)))).
    rewrite matches_Alt, IH by discriminate. reflexivity.
Qed.

(** ** What [_has_report_heading] decides *)

Lemma at_bol_line_start before :
  at_bol MI (last_of None before) = true <-> line_start before.
Proof.
  unfold line_start, at_bol. destruct (last_of None before) as [c|]; simpl.
  - rewrite N.eqb_eq. split; [intros ->; now right|].
    intros [H|H]; congruence.
  - split; auto.
Qed.

Lemma lit_match_SP fl x : lit_match fl SP x = true -> x = SP.
Proof.
  unfold lit_match, SP. destruct (IGNORECASE fl).
  - cbn. unfold lower. rewrite orb_false_r.
    repeat case_if; intros H; code_points.
  - intros H. apply N.eqb_eq in H. now subst.
Qed.

Lemma lit_match_refl fl c : lit_match fl c c = true.
Proof.
  unfold lit_match. destruct (IGNORECASE fl); [|apply N.eqb_refl].
  simpl. now rewrite N.eqb_refl.
Qed.

Lemma matches_Cat_Bol fl r p s k :
  matches fl (Cat Bol r) p s k = at_bol fl p && matches fl r p s k.
Proof. reflexivity. Qed.

Lemma matches_Cat_Lit fl c r p s k :
  matches fl (Cat (Lit c) r) p s k
  = match s with
    | x :: s' => lit_match fl c x && matches fl r (Some x) s' k
    | [] => false
    end.
Proof. reflexivity. Qed.

Lemma matches_report_words prev s k :
  matches MI (alts (map word REPORT_WORDS)) prev s k = true <->
  exists w w' rest,
    s = w' ++ rest /\ In w REPORT_WORDS /\ same_letters MI w w' /\
    k (last_of prev w') rest = true.
Proof.
  rewrite matches_alts_words by discriminate.
  rewrite existsb_exists. split.
  - intros [w [Hw H]].
    apply matches_word_spec in H as [w' [rest [-> [Hsame Hk]]]].
    now exists w, w', rest.
  - intros [w [w' [rest [-> [Hw [Hsame Hk]]]]]]. exists w.
    split; [exact Hw|].
    apply matches_word_spec. now exists w', rest.
Qed.

Lemma match_here_report_heading prev s :
  match_here MI REPORT_HEADING_RE prev s = true <->
  at_bol MI prev = true /\
  exists gap w w' rest,
    s = [HASH; SP] ++ gap ++ w' ++ rest /\
    gap <> [] /\ ~ In NL gap /\
    In w REPORT_WORDS /\ same_letters MI w w'.
Proof.
  unfold match_here, REPORT_HEADING_RE.
  change (cats _) with
    (Cat Bol (Cat (Lit HASH) (Cat (Lit SP)
       (Cat (Plus Dot) (alts (map word REPORT_WORDS)))))).
  rewrite matches_Cat_Bol, andb_true_iff.
  apply and_iff_compat_l.
  rewrite matches_Cat_Lit. split.
  - destruct s as [|x s]; [discriminate|].
    rewrite andb_true_iff, matches_Cat_Lit. intros [Hx H].
    destruct s as [|y s]; [discriminate|].
    apply andb_true_iff in H as [Hy H].
    apply lit_match_HASH in Hx. apply lit_match_SP in Hy. subst x y.
    rewrite matches_Cat in H.
    apply matches_Plus_Dot_spec in H as [gap [rest0 [-> [Hne [Hnl H]]]]].
    apply matches_report_words in H as [w [w' [rest [-> [Hw [Hsame _]]]]]].
    now exists gap, w, w', rest.
  - intros [gap [w [w' [rest [-> [Hne [Hnl [Hw Hsame]]]]]]]].
    change ([HASH; SP] ++ gap ++ w' ++ rest)
      with (HASH :: SP :: gap ++ w' ++ rest).
    cbv beta iota. rewrite lit_match_refl, matches_Cat_Lit.
    cbv beta iota. rewrite lit_match_refl.
    cbn [andb]. rewrite matches_Cat. apply matches_Plus_Dot_spec.
    exists gap, (w' ++ rest).
    split; [reflexivity|]. split; [exact Hne|]. split; [exact Hnl|].
    apply matches_report_words. now exists w, w', rest.
Qed.

(** The code asks for at least one character between the marker and the
    word. *)
Lemma has_report_heading_iff text :
  _has_report_heading text = true <-> titled_heading 1 text.
Proof.
  unfold _has_report_heading, search, titled_heading.
  rewrite search_from_found. split.
  - intros [before [after [-> H]]].
    apply match_here_report_heading in H as [Hb [gap [w [w' [rest H]]]]].
    destruct H as [-> [Hne [Hnl [Hw Hsame]]]].
    exists before, gap, w, w', rest. repeat split; try easy.
    + now apply at_bol_line_start.
    + destruct gap; [congruence | simpl; lia].
  - intros [before [gap [w [w' [rest [-> [Hb [Hlen [Hnl [Hw Hsame]]]]]]]]]].
    exists before, ([HASH; SP] ++ gap ++ w' ++ rest). split; [reflexivity|].
    apply match_here_report_heading. split; [now apply at_bol_line_start|].
    exists gap, w, w', rest. repeat split; try easy.
    intros ->. simpl in Hlen. lia.
Qed.

(** What the code accepts is a titled heading in the wider sense too. *)
Lemma titled_heading_gap text : titled_heading 1 text -> titled_heading 0 text.
Proof.
  intros [before [gap [w [w' [rest [Ht [Hb [_ H]]]]]]]].
  exists before, gap, w, w', rest.
  split; [exact Ht|]. split; [exact Hb|]. split; [lia | exact H].
Qed.

Lemma same_letters_refl fl w : same_letters fl w w.
Proof. induction w; constructor; [apply lit_match_refl | assumption]. Qed.

(** C2, at a heading the code misses: [# Market Trends] is a top-level
    heading at the start of a line whose title contains the word Market,
    and [_has_report_heading] is false for it, as is the search of
    strategy 4: the pattern wants a character between [# ] and the word. *)
Theorem report_heading_leading_word :
  titled_heading 0 (py "# Market Trends") /\
  _has_report_heading (py "# Market Trends") = false /\
  search REPORT_HEADING_RE (py "# Market Trends") MI = None.
Proof.
  split; [|split; reflexivity].
  exists [], [], (py "Market"), (py "Market"), (py " Trends").
  split; [reflexivity|]. split; [now left|]. split; [simpl; lia|].
  split; [intros []|]. split; [now left | apply same_letters_refl].
Qed.

(** The same title after any other character is found. *)
Example report_heading_inner_word :
  _has_report_heading (py "# EV Market Trends") = true.
Proof. reflexivity. Qed.

End HeadingProps.

(* ===================================================================== *)
(** * The runner's captured terminal result *)
(* ===================================================================== *)

Module RunnerProps.
Import PyStr Agent Notions StrFacts.

Lemma on_block_result_text acc block :
  result_text (snd (on_block acc block)) = result_text (snd acc).
Proof.
  destruct acc as [parts st], block as [text|name input|]; simpl; try reflexivity.
  repeat case_decide; reflexivity.
Qed.

Lemma fold_on_block_result_text content : forall acc,
  result_text (snd (fold_left on_block content acc)) = result_text (snd acc).
Proof.
  induction content as [|b content IH]; intros acc; simpl; [reflexivity|].
  now rewrite IH, on_block_result_text.
Qed.

Lemma on_message_result_text st message :
  result_text (on_message st message)
  = match message with
    | ResultMessage (Some r) => if truthy r then r else result_text st
    | _ => result_text st
    end.
Proof.
  destruct message as [content|[r|]| |]; simpl; try reflexivity.
  - pose proof (fold_on_block_result_text content ([], st)) as H.
    destruct (fold_left on_block content ([], st)) as [parts st'].
    simpl in H. destruct parts; simpl; exact H.
  - destruct (truthy r); reflexivity.
Qed.

Lemma last_cons {A} (x : A) l d : last (x :: l) d = last l x.
Proof.
  revert x d. induction l as [|y l IH]; intros x d; [reflexivity|].
  change (last (x :: y :: l) d) with (last (y :: l) d).
  now rewrite !IH.
Qed.

Lemma fold_on_message_result_text stream : forall st,
  result_text (fold_left on_message stream st)
  = last (List.filter truthy (terminal_results stream)) (result_text st).
Proof.
  induction stream as [|m stream IH]; intros st; [reflexivity|].
  simpl fold_left. rewrite IH, on_message_result_text.
  destruct m as [content|[r|]| |]; try reflexivity.
  simpl terminal_results. simpl List.filter.
  destruct (truthy r); [now rewrite last_cons | reflexivity].
Qed.

(** C7, as the specification words it, fails: when a terminal-result
    message with an empty result follows one with a non-empty result, the
    runner keeps the earlier string, not the last one. *)
Lemma captured_result_counterexample :
  result_text (consume [ResultMessage (Some (py "# Report"));
                        ResultMessage (Some [])])
  <> last (terminal_results [ResultMessage (Some (py "# Report"));
                             ResultMessage (Some [])]) [].
Proof. vm_compute. discriminate. Qed.

(** C7, amended. The string the runner captures is the result of the last
    terminal-result message whose result is not empty; a message whose
    result is empty or absent overwrites nothing, and with no non-empty
    result the captured string is empty. *)
Theorem captured_result_last_nonempty (stream : list Message) :
  result_text (consume stream)
  = last (List.filter truthy (terminal_results stream)) [].
Proof. unfold consume. now rewrite fold_on_message_result_text. Qed.

(** On streams whose terminal results are all non-empty, that is the last
    terminal result. *)
Lemma captured_result_last (stream : list Message) :
  forallb truthy (terminal_results stream) = true ->
  result_text (consume stream) = last (terminal_results stream) [].
Proof.
  intros H. unfold consume. rewrite fold_on_message_result_text.
  change (result_text initial) with (@nil N). f_equal.
  induction (terminal_results stream) as [|r l IH]; [reflexivity|].
  simpl in *. apply andb_true_iff in H as [-> H]. now rewrite IH.
Qed.

End RunnerProps.

(* ===================================================================== *)
(** * The streaming session manager *)
(* ===================================================================== *)

Module WebProps.
Import PyStr Web Notions.

(** ** The turn count *)

(** C6. The turn count the agent run is started with is the requested
    one clamped to the range 10 to 100, [max(10, min(100, t))]: requests
    below 10 give 10, requests above 100 give 100, the others are kept;
    so 5 gives 10, 500 gives 100 and 42 gives 42. *)
Theorem stream_research_clamps_turns
    (topic prompt session_id : str) (env : environment) (w : world) (t : Z) :
  let effective :=
    call_max_turns (call (fst (stream_research topic prompt t session_id env w))) in
  (effective = Z.max 10 (Z.min 100 t) /\
   (t < 10 -> effective = 10) /\
   (10 <= t <= 100 -> effective = t) /\
   (100 < t -> effective = 100))%Z.
Proof.
  unfold stream_research, event_stream. simpl.
  destruct (finishing env _) as [final exc]. simpl.
  split; [reflexivity|]. split; [|split]; lia.
Qed.

Lemma stream_research_clamps_turns_witness :
  let turns t :=
    call_max_turns
      (call (fst (stream_research (py "EV chargers") [] t (py "1f0c9a2e")
                    IDLE EMPTY))) in
  (turns 5 = 10 /\ turns 500 = 100 /\ turns 42 = 42)%Z.
Proof.
  intros turns. split; [|split].
  - apply (stream_research_clamps_turns (py "EV chargers") [] (py "1f0c9a2e")
             IDLE EMPTY 5). lia.
  - apply (stream_research_clamps_turns (py "EV chargers") [] (py "1f0c9a2e")
             IDLE EMPTY 500). lia.
  - apply (stream_research_clamps_turns (py "EV chargers") [] (py "1f0c9a2e")
             IDLE EMPTY 42). lia.
Defined.

(** ** The cancel endpoint *)

Lemma cancel_research_active body w h :
  _active_sessions w !! session_of body = Some h ->
  done (tasks w h) = false ->
  cancel_research body w
  = (Response (py "cancelled") (session_of body) 200,
     with_task (with_sessions w (delete (session_of body) (_active_sessions w)))
       h (Pending true)).
Proof.
  intros Hreg Hrun. unfold cancel_research. cbv zeta. fold (session_of body).
  rewrite Hreg. simpl tasks. rewrite Hrun. simpl negb. cbv iota.
  destruct (tasks w h); [reflexivity | discriminate].
Qed.

Lemma cancel_research_inactive body w :
  (forall h, _active_sessions w !! session_of body = Some h ->
             done (tasks w h) = true) ->
  cancel_research body w
  = (Response (py "not_found") (session_of body) 404,
     with_sessions w (delete (session_of body) (_active_sessions w))).
Proof.
  intros Hdone. unfold cancel_research. cbv zeta. fold (session_of body).
  destruct (_active_sessions w !! session_of body) as [h|] eqn:E; [|reflexivity].
  simpl tasks. now rewrite (Hdone h eq_refl).
Qed.

Lemma cancel_research_unregisters body w :
  _active_sessions (snd (cancel_research body w)) !! session_of body = None.
Proof.
  unfold cancel_research. cbv zeta. fold (session_of body).
  destruct (_active_sessions w !! session_of body) as [h|];
    [destruct (negb _)|]; simpl; apply lookup_delete_eq.
Qed.

Lemma with_sessions_delete_id w sid :
  _active_sessions w !! sid = None ->
  with_sessions w (delete sid (_active_sessions w)) = w.
Proof.
  intros H. unfold with_sessions. rewrite (delete_id _ _ H). now destruct w.
Qed.

(** C5. The cancel endpoint never fails.  For a session id that is
    registered with a task that is not done it answers [cancelled], asks
    that task, and no other, to cancel, and unregisters the id.  In every
    other case (an unknown id, or one whose task is done) it answers
    [not_found] and touches no task.  A second call for the same id
    always answers [not_found] and changes nothing. *)
Theorem cancel_research_contract (body : gmap str str) (w : world) :
  let session_id := session_of body in
  let answer := fst (cancel_research body w) in
  let w' := snd (cancel_research body w) in
  (forall h,
     _active_sessions w !! session_id = Some h -> done (tasks w h) = false ->
     answer = Response (py "cancelled") session_id 200 /\
     tasks w' h = Pending true /\
     (forall h', h' <> h -> tasks w' h' = tasks w h') /\
     _active_sessions w' !! session_id = None) /\
  ((forall h, _active_sessions w !! session_id = Some h ->
              done (tasks w h) = true) ->
     answer = Response (py "not_found") session_id 404 /\
     tasks w' = tasks w) /\
  cancel_research body w' = (Response (py "not_found") session_id 404, w').
Proof.
  cbv zeta. split; [|split].
  - intros h Hreg Hrun. rewrite (cancel_research_active _ _ _ Hreg Hrun).
    simpl. split; [reflexivity|]. split; [apply fn_lookup_insert|].
    split; [|apply lookup_delete_eq].
    intros h' Hne. now apply fn_lookup_insert_ne.
  - intros Hdone. rewrite (cancel_research_inactive _ _ Hdone). now simpl.
  - pose proof (cancel_research_unregisters body w) as Hnone.
    rewrite cancel_research_inactive.
    + now rewrite with_sessions_delete_id.
    + intros h Hreg. rewrite Hnone in Hreg. discriminate.
Qed.

Lemma cancel_research_contract_witness :
  fst (cancel_research CANCEL_BODY ONE_SESSION)
  = Response (py "cancelled") (py "1f0c9a2e") 200
  /\ fst (cancel_research CANCEL_BODY (snd (cancel_research CANCEL_BODY ONE_SESSION)))
     = Response (py "not_found") (py "1f0c9a2e") 404.
Proof.
  destruct (cancel_research_contract CANCEL_BODY ONE_SESSION) as [Hfirst [_ Hsecond]].
  split.
  - destruct (Hfirst 0) as [Hanswer _];
      [vm_compute; reflexivity | reflexivity | exact Hanswer].
  - rewrite Hsecond. reflexivity.
Defined.

(** Once a stream has ended its session id is unknown to the endpoint. *)
Lemma event_stream_unregisters topic prompt n sid env w :
  _active_sessions (snd (event_stream topic prompt n sid env w)) !! sid = None.
Proof.
  unfold event_stream, create_task. cbv zeta. simpl tasks.
  rewrite fn_lookup_insert.
  destruct (finishing env _) as [final exc]. simpl. apply lookup_delete_eq.
Qed.

Lemma cancel_after_stream topic prompt n env w body :
  fst (cancel_research body
         (snd (event_stream topic prompt n (session_of body) env w)))
  = Response (py "not_found") (session_of body) 404.
Proof.
  rewrite cancel_research_inactive; [reflexivity|].
  intros h H. rewrite event_stream_unregisters in H. discriminate.
Qed.

(** ** The end of the event stream *)

Lemma quiet_app evs evs' : quiet (evs ++ evs') = quiet evs && quiet evs'.
Proof. apply forallb_app. Qed.

Lemma opening_quiet topic prompt n sid : quiet (opening topic prompt n sid) = true.
Proof. unfold opening. destruct (truthy prompt); reflexivity. Qed.

Lemma polling_quiet started ps : forall last_heartbeat,
  quiet (polling started last_heartbeat ps) = true.
Proof.
  induction ps as [|[message msg_type now|now] ps IH]; intros lh; simpl.
  - reflexivity.
  - apply IH.
  - destruct (now - lh >=? 10)%Z; simpl; apply IH.
Qed.

Lemma draining_quiet q : quiet (draining q) = true.
Proof. induction q as [|[m t] q IH]; simpl; [reflexivity | exact IH]. Qed.

Lemma forallb_rev_eq {A} (P : A -> bool) (l : list A) :
  forallb P (rev l) = forallb P l.
Proof.
  induction l as [|x l IH]; simpl; [reflexivity|].
  rewrite forallb_app, IH. simpl. rewrite andb_true_r. apply andb_comm.
Qed.

Lemma ends_with_one_terminal_snoc evs e :
  quiet evs = true -> terminal e = true ->
  ends_with_one_terminal (evs ++ [e]) = true.
Proof.
  intros Hq He. unfold ends_with_one_terminal.
  rewrite rev_app_distr. simpl. rewrite He. simpl.
  unfold quiet in Hq. now rewrite forallb_rev_eq.
Qed.

Lemma quiet_not_ended evs : quiet evs = true -> ends_with_one_terminal evs = false.
Proof.
  intros Hq. unfold ends_with_one_terminal.
  destruct (rev evs) as [|e before] eqn:E; [reflexivity|].
  assert (He : In e evs) by (apply in_rev; rewrite E; now left).
  unfold quiet in Hq. rewrite List.forallb_forall in Hq.
  apply Hq, negb_true_iff in He. now rewrite He.
Qed.

(** The stream part of [event_stream], with the task done. *)
Lemma event_stream_stream topic prompt n sid env w :
  fst (event_stream topic prompt n sid env w)
  = {| call := {| call_topic := topic; call_additional_instructions := prompt;
                  call_max_turns := n |};
       events := opening topic prompt n sid
                 ++ polling (started_at env) (started_at env) (polls env)
                 ++ draining (residual env)
                 ++ fst (finishing env (Done (outcome env)));
       raised := snd (finishing env (Done (outcome env))) |}.
Proof.
  unfold event_stream, create_task. cbv zeta. simpl tasks.
  rewrite fn_lookup_insert.
  now destruct (finishing env _) as [final exc].
Qed.

Lemma finishing_ends env :
  fallback_lost env = false ->
  exists before e,
    finishing env (Done (outcome env)) = (before ++ [e], None) /\
    quiet before = true /\ terminal e = true.
Proof.
  unfold fallback_lost, finishing.
  destruct (outcome env) as [md|e|]; cbn [cancelled result].
  - destruct (render_pdf env) as [name path|e].
    + intros _. eexists (CONVERTING ++ [log _ _]), (complete _ _ _).
      split; [now rewrite <- app_assoc|]. split; reflexivity.
    + destruct (write_text env); [discriminate|]. intros _.
      eexists CONVERTING, (error_event _).
      split; [reflexivity|]. split; reflexivity.
  - intros _. exists [], (error_event (str_of_exn e)).
    split; [reflexivity|]. split; reflexivity.
  - intros _. exists [], STOPPED. split; [reflexivity|]. split; reflexivity.
Qed.

(** Whenever the fallback file is not lost, the stream ends with one
    terminal event, after events that are not terminal, and the generator
    raises nothing: so for a run that completes, fails or is cancelled, and
    for a rendering failure whose fallback file gets written. *)
Lemma event_stream_ends_once topic prompt n sid env w :
  fallback_lost env = false ->
  let s := fst (event_stream topic prompt n sid env w) in
  raised s = None /\ ends_with_one_terminal (events s) = true.
Proof.
  intros Hf. cbv zeta. rewrite event_stream_stream. cbn [events raised].
  destruct (finishing_ends env Hf) as [before [e [-> [Hq He]]]].
  cbn [fst snd].
  split; [reflexivity|].
  rewrite !app_assoc. apply ends_with_one_terminal_snoc; [|exact He].
  now rewrite !quiet_app, opening_quiet, polling_quiet, draining_quiet, Hq.
Qed.

(** When it is lost, the exception of the write escapes the generator
    and no terminal event is ever sent. *)
Lemma event_stream_fallback_lost topic prompt n sid env w :
  fallback_lost env = true ->
  let s := fst (event_stream topic prompt n sid env w) in
  raised s = write_text env /\ is_Some (raised s) /\
  quiet (events s) = true /\ ends_with_one_terminal (events s) = false.
Proof.
  intros Hf. cbv zeta. rewrite event_stream_stream. cbn [events raised].
  unfold fallback_lost in Hf. unfold finishing.
  destruct (outcome env) as [md|e|]; try discriminate.
  destruct (render_pdf env) as [name path|e]; try discriminate.
  destruct (write_text env) as [e'|]; try discriminate.
  cbn [cancelled result fst snd].
  assert (Hq : quiet
    (opening topic prompt n sid ++
     polling (started_at env) (started_at env) (polls env) ++
     draining (residual env) ++ CONVERTING) = true).
  { now rewrite !quiet_app, opening_quiet, polling_quiet, draining_quiet. }
  split; [reflexivity|]. split; [now eexists|].
  split; [exact Hq | now apply quiet_not_ended].
Qed.

(** C8, at a run the code does not cover: after a rendering failure
    whose fallback file cannot be written, the stream carries no terminal
    event and the generator ends with the exception of the write. *)
Theorem event_stream_without_terminal_event :
  let s := fst (stream_research (py "AI/ML") [] 50 (py "1f0c9a2e")
                  FALLBACK_LOST EMPTY) in
  map event (events s)
  = [py "session"; py "status"; py "log"; py "log";
     py "log"; py "status"; py "heartbeat"; py "log"; py "status"]
  /\ raised s = Some (Exception (py "[Errno 2] No such file or directory"))
  /\ ends_with_one_terminal (events s) = false.
Proof. vm_compute. split; [reflexivity|]. split; reflexivity. Qed.

End WebProps.

(* ===================================================================== *)
(** * More on the extractor and the runner *)
(* ===================================================================== *)

Module AgentMore.
Import PyStr Re Agent Notions StrFacts ExtractProps HeadingProps.

(** ** Heading lines *)

Lemma at_bol_multiline fl before :
  MULTILINE fl = true ->
  at_bol fl (last_of None before) = true <-> line_start before.
Proof.
  intros Hm. unfold line_start, at_bol. rewrite Hm.
  destruct (last_of None before) as [c|]; simpl.
  - rewrite N.eqb_eq. split; [intros ->; now right|].
    intros [H|H]; congruence.
  - split; auto.
Qed.

Lemma matches_Plus_Dot_here fl prev s :
  matches fl (Plus Dot) prev s (fun _ _ => true) = true <->
  exists c rest, s = c :: rest /\ c <> NL.
Proof.
  rewrite matches_Plus_Dot_spec. split.
  - intros [[|c gap] [rest [-> [Hne [Hnl _]]]]]; [congruence|].
    exists c, (gap ++ rest). split; [reflexivity|].
    intros ->. apply Hnl. now left.
  - intros [c [rest [-> Hc]]]. exists [c], rest.
    split; [reflexivity|]. split; [discriminate|].
    split; [|reflexivity]. intros [H|[]]. congruence.
Qed.

Lemma lit_match_exact c x : lit_match M c x = true <-> x = c.
Proof. unfold lit_match. simpl. rewrite N.eqb_eq. split; congruence. Qed.

Lemma match_here_H1 prev s :
  match_here M H1_RE prev s = true <->
  at_bol M prev = true /\
  exists c rest, s = [HASH] ++ [SP; c] ++ rest /\ c <> NL.
Proof.
  unfold match_here, H1_RE.
  change (cats _) with (Cat Bol (Cat (Lit HASH) (Cat (Lit SP) (Plus Dot)))).
  rewrite matches_Cat_Bol, andb_true_iff. apply and_iff_compat_l.
  rewrite matches_Cat_Lit. split.
  - destruct s as [|x s]; [discriminate|].
    rewrite andb_true_iff, matches_Cat_Lit. intros [Hx H].
    destruct s as [|y s]; [discriminate|].
    apply andb_true_iff in H as [Hy H].
    apply lit_match_exact in Hx, Hy. subst x y.
    apply matches_Plus_Dot_here in H as [c [rest [-> Hc]]].
    now exists c, rest.
  - intros [c [rest [-> Hc]]].
    change ([HASH] ++ [SP; c] ++ rest) with (HASH :: SP :: c :: rest).
    cbv beta iota. rewrite (proj2 (lit_match_exact HASH HASH) eq_refl).
    rewrite matches_Cat_Lit. cbv beta iota.
    rewrite (proj2 (lit_match_exact SP SP) eq_refl). cbn [andb].
    apply matches_Plus_Dot_here. now exists c, rest.
Qed.

Lemma match_here_H2 prev s :
  match_here M H2_RE prev s = true <->
  at_bol M prev = true /\
  exists c rest, s = [HASH; HASH] ++ [SP; c] ++ rest /\ c <> NL.
Proof.
  unfold match_here, H2_RE.
  change (cats _) with
    (Cat Bol (Cat (Lit HASH) (Cat (Lit HASH) (Cat (Lit SP) (Plus Dot))))).
  rewrite matches_Cat_Bol, andb_true_iff. apply and_iff_compat_l.
  rewrite matches_Cat_Lit. split.
  - destruct s as [|x s]; [discriminate|].
    rewrite andb_true_iff, matches_Cat_Lit. intros [Hx H].
    destruct s as [|y s]; [discriminate|].
    apply andb_true_iff in H as [Hy H]. rewrite matches_Cat_Lit in H.
    destruct s as [|z s]; [discriminate|].
    apply andb_true_iff in H as [Hz H].
    apply lit_match_exact in Hx, Hy, Hz. subst x y z.
    apply matches_Plus_Dot_here in H as [c [rest [-> Hc]]].
    now exists c, rest.
  - intros [c [rest [-> Hc]]].
    change ([HASH; HASH] ++ [SP; c] ++ rest)
      with (HASH :: HASH :: SP :: c :: rest).
    cbv beta iota. rewrite (proj2 (lit_match_exact HASH HASH) eq_refl).
    rewrite matches_Cat_Lit. cbv beta iota.
    rewrite (proj2 (lit_match_exact HASH HASH) eq_refl).
    rewrite matches_Cat_Lit. cbv beta iota.
    rewrite (proj2 (lit_match_exact SP SP) eq_refl). cbn [andb].
    apply matches_Plus_Dot_here. now exists c, rest.
Qed.

Lemma found_H1 text :
  found (search H1_RE text M) = true <-> heading_line [HASH] text.
Proof.
  unfold search, heading_line. rewrite search_from_found. split.
  - intros [before [after [-> H]]].
    apply match_here_H1 in H as [Hb [c [rest [-> Hc]]]].
    exists before, c, rest. split; [reflexivity|].
    split; [now apply (at_bol_multiline M) | exact Hc].
  - intros [before [c [rest [-> [Hb Hc]]]]].
    exists before, ([HASH] ++ [SP; c] ++ rest). split; [reflexivity|].
    apply match_here_H1. split; [now apply (at_bol_multiline M)|].
    now exists c, rest.
Qed.

Lemma found_H2 text :
  found (search H2_RE text M) = true <-> heading_line [HASH; HASH] text.
Proof.
  unfold search, heading_line. rewrite search_from_found. split.
  - intros [before [after [-> H]]].
    apply match_here_H2 in H as [Hb [c [rest [-> Hc]]]].
    exists before, c, rest. split; [reflexivity|].
    split; [now apply (at_bol_multiline M) | exact Hc].
  - intros [before [c [rest [-> [Hb Hc]]]]].
    exists before, ([HASH; HASH] ++ [SP; c] ++ rest). split; [reflexivity|].
    apply match_here_H2. split; [now apply (at_bol_multiline M)|].
    now exists c, rest.
Qed.

(** X1. [_is_report_text(text, n)] holds exactly when the text has a line
    that starts with [# ] and one more character, a line that starts
    with [## ] and one more character, and more than [n] characters. *)
Theorem is_report_text_iff (text : str) (min_length : nat) :
  _is_report_text text min_length = true <->
  heading_line [HASH] text /\ heading_line [HASH; HASH] text /\
  min_length < length text.
Proof.
  unfold _is_report_text. cbv zeta.
  rewrite !andb_true_iff, found_H1, found_H2, Nat.ltb_lt. tauto.
Qed.

(** ** More on [strip] *)

Lemma lstrip_snoc u c : isspace c = false -> lstrip (u ++ [c]) = lstrip u ++ [c].
Proof.
  intros Hc. induction u as [|x u IH]; simpl; [now rewrite Hc|].
  destruct (isspace x); [exact IH | reflexivity].
Qed.

Lemma lstrip_idempotent s : lstrip (lstrip s) = lstrip s.
Proof.
  induction s as [|c s IH]; simpl; [reflexivity|].
  destruct (isspace c) eqn:E; [exact IH|]. simpl. now rewrite E.
Qed.

Lemma lstrip_suffix s : exists u, s = u ++ lstrip s.
Proof.
  induction s as [|c s [u IH]]; simpl; [now exists []|].
  destruct (isspace c); [|now exists []].
  exists (c :: u). simpl. now f_equal.
Qed.

Lemma rstrip_prefix s : exists u, s = rstrip s ++ u.
Proof.
  unfold rstrip. destruct (lstrip_suffix (rev s)) as [u Hu].
  exists (rev u). rewrite <- rev_app_distr, <- Hu. now rewrite rev_involutive.
Qed.

Lemma rstrip_idempotent s : rstrip (rstrip s) = rstrip s.
Proof. unfold rstrip. now rewrite rev_involutive, lstrip_idempotent. Qed.

Lemma rstrip_cons c s : isspace c = false -> rstrip (c :: s) = c :: rstrip s.
Proof.
  intros Hc. unfold rstrip. simpl rev.
  now rewrite (lstrip_snoc _ _ Hc), rev_app_distr.
Qed.

Lemma lstrip_head s : lstrip s = [] \/ exists c t, lstrip s = c :: t /\ isspace c = false.
Proof.
  induction s as [|c s IH]; simpl; [now left|].
  destruct (isspace c) eqn:E; [exact IH|]. right. now exists c, s.
Qed.

(** Stripping twice is stripping once. *)
Lemma strip_idempotent s : strip (strip s) = strip s.
Proof.
  unfold strip at 2 3.
  destruct (lstrip_head s) as [->|[c [t [-> Hc]]]]; [reflexivity|].
  rewrite (rstrip_cons _ _ Hc). unfold strip. simpl lstrip. rewrite Hc.
  now rewrite (rstrip_cons _ _ Hc), rstrip_idempotent.
Qed.

Lemma blank_strip s : blank (strip s) = blank s.
Proof. unfold strip, rstrip. now rewrite blank_rev, blank_lstrip, blank_rev, blank_lstrip. Qed.

(** A stripped text keeps the first two characters of a text that starts
    with a character that is not white space, when it keeps two at all. *)
Lemma strip_keeps_head c d s :
  isspace c = false -> 2 <= length (strip (c :: d :: s)) ->
  exists rest, strip (c :: d :: s) = c :: d :: rest.
Proof.
  intros Hc Hlen. unfold strip in *. simpl lstrip in *. rewrite Hc in *.
  rewrite (rstrip_cons _ _ Hc) in *.
  destruct (rstrip_prefix (d :: s)) as [u Hu].
  destruct (rstrip (d :: s)) as [|d' r]; [simpl in Hlen; lia|].
  simpl in Hu. injection Hu as <- _. now exists r.
Qed.

(** ** The cascade, case by case *)

Lemma extract_report_cases rt ms (P : str -> Prop) :
  (forall r, strategy1 rt = Some r -> P r) ->
  (forall n r, single_message ms n = Some r -> P r) ->
  (forall n r, trailing_window ms n = Some r -> P r) ->
  (forall r, strategy4 rt ms = Some r -> P r) ->
  (forall r, strategy5 rt ms = Some r -> P r) ->
  P (last_resort rt ms) ->
  P (_extract_report rt ms).
Proof.
  intros H1 H2 H3 H4 H5 H7. unfold _extract_report.
  destruct (strategy1 rt) eqn:E1; [now apply H1|].
  destruct (single_message ms 1000) eqn:E2; [now apply (H2 1000)|].
  destruct (trailing_window ms 1000) eqn:E3; [now apply (H3 1000)|].
  destruct (strategy4 rt ms) eqn:E4; [now apply H4|].
  destruct (strategy5 rt ms) eqn:E5; [now apply H5|].
  destruct (single_message ms 500) eqn:E6; [now apply (H2 500)|].
  destruct (trailing_window ms 500) eqn:E7; [now apply (H3 500)|].
  exact H7.
Qed.

Lemma strategy1_inv rt r :
  strategy1 rt = Some r -> r = strip rt /\ _is_report_text rt 1000 = true.
Proof.
  unfold strategy1.
  destruct (truthy rt && _is_report_text rt 1000) eqn:E; [|discriminate].
  intros [= <-]. now apply andb_true_iff in E as [_ E].
Qed.

Lemma single_message_inv ms n r :
  single_message ms n = Some r ->
  exists m, In m ms /\ r = strip m /\ _is_report_text m n = true.
Proof.
  unfold single_message. intros H.
  apply for_return_Some in H as [m [Hin H]]. apply in_rev in Hin.
  destruct (_is_report_text m n) eqn:E; [|discriminate].
  injection H as <-. now exists m.
Qed.

Lemma trailing_window_inv ms n r :
  trailing_window ms n = Some r ->
  exists k, 2 <= k <= 7 /\ k <= length ms /\
    r = strip (join BLANK (last_n k ms)) /\
    _is_report_text (join BLANK (last_n k ms)) n = true.
Proof.
  unfold trailing_window. intros H.
  apply for_return_Some in H as [k [Hin H]]. cbv zeta in H.
  unfold range in Hin. apply in_seq in Hin.
  destruct (_is_report_text _ n) eqn:E; [|discriminate].
  injection H as <-. exists k. split; [lia|]. split; [lia|]. now split.
Qed.

Lemma strategy5_inv rt ms r :
  strategy5 rt ms = Some r ->
  200 < length rt /\
  exists k, 1 <= k <= 4 /\ k <= length ms /\
    r = strip (join BLANK (last_n k ms) ++ BLANK ++ rt) /\
    _is_report_text (join BLANK (last_n k ms) ++ BLANK ++ rt) 500 = true.
Proof.
  unfold strategy5.
  destruct (truthy rt && (200 <? length rt)) eqn:Ert; [|discriminate].
  apply andb_true_iff in Ert as [_ Ert]. apply Nat.ltb_lt in Ert.
  intros H. split; [exact Ert|].
  apply for_return_Some in H as [k [Hin H]]. cbv zeta in H.
  unfold range in Hin. apply in_seq in Hin.
  destruct (_is_report_text _ 500) eqn:E; [|discriminate].
  injection H as <-. exists k. split; [lia|]. split; [lia|]. now split.
Qed.

Lemma strategy4_inv rt ms r :
  strategy4 rt ms = Some r ->
  exists start,
    (search REPORT_HEADING_RE (full_text rt ms) MI = Some start \/
     search REPORT_HEADING_RE (full_text rt ms) MI = None /\
     search H1_RE (full_text rt ms) M = Some start) /\
    r = strip (slice_from (Z.of_nat start) (full_text rt ms)) /\
    300 < length r.
Proof.
  unfold strategy4. cbv zeta.
  destruct (search REPORT_HEADING_RE (full_text rt ms) MI) as [p|] eqn:E1.
  - destruct (300 <? length _) eqn:E; [|discriminate].
    intros [= <-]. apply Nat.ltb_lt in E. exists p. auto.
  - destruct (search H1_RE (full_text rt ms) M) as [p|] eqn:E2; [|discriminate].
    destruct (300 <? length _) eqn:E; [|discriminate].
    intros [= <-]. apply Nat.ltb_lt in E. exists p. auto.
Qed.

Lemma full_text_blank rt ms :
  blank (full_text rt ms) = blank rt && forallb blank ms.
Proof.
  unfold full_text. destruct rt as [|c rt]; simpl truthy; cbv iota.
  - now rewrite blank_join.
  - rewrite !blank_app, blank_join. simpl (blank BLANK).
    rewrite andb_true_l. apply andb_comm.
Qed.

(** X3. Whatever [_extract_report] returns has no white space at either
    end, unless it is the terminal result itself, handed back as it is
    because it and every message hold white space only. *)
Theorem extract_report_stripped (result_text : str) (message_texts : list str) :
  let report := _extract_report result_text message_texts in
  strip report = report \/
  (report = result_text /\ blank result_text = true /\
   forallb blank message_texts = true).
Proof.
  cbv zeta. apply extract_report_cases.
  - intros r H. apply strategy1_inv in H as [-> _]. left. apply strip_idempotent.
  - intros n r H. apply single_message_inv in H as [m [_ [-> _]]].
    left. apply strip_idempotent.
  - intros n r H. apply trailing_window_inv in H as [k [_ [_ [-> _]]]].
    left. apply strip_idempotent.
  - intros r H. apply strategy4_inv in H as [p [_ [-> _]]].
    left. apply strip_idempotent.
  - intros r H. apply strategy5_inv in H as [_ [k [_ [_ [-> _]]]]].
    left. apply strip_idempotent.
  - unfold last_resort.
    destruct (truthy (strip (full_text result_text message_texts))) eqn:E.
    + left. apply strip_idempotent.
    + right. apply truthy_false_iff, strip_nil_iff in E.
      rewrite full_text_blank in E. apply andb_true_iff in E as [Hr Hm].
      now split.
Qed.

(** ** Strategy 2 *)

Lemma for_return_app {A B} (l1 l2 : list A) (body : A -> option B) :
  for_return (l1 ++ l2) body
  = match for_return l1 body with
    | Some v => Some v
    | None => for_return l2 body
    end.
Proof.
  induction l1 as [|x l1 IH]; simpl; [reflexivity|].
  destruct (body x); [reflexivity | exact IH].
Qed.

(** X2. When the terminal result does not look like a report, the
    extractor returns, stripped, the most recent message that does at
    threshold 1000: later messages that do not qualify are passed over,
    earlier ones are not looked at. *)
Theorem extract_most_recent_report
    (result_text : str) (earlier : list str) (m : str) (later : list str) :
  _is_report_text result_text 1000 = false ->
  _is_report_text m 1000 = true ->
  (forall x, In x later -> _is_report_text x 1000 = false) ->
  _extract_report result_text (earlier ++ m :: later) = strip m.
Proof.
  intros Hr Hm Hlater. unfold _extract_report, strategy1.
  rewrite Hr, andb_false_r. unfold single_message.
  rewrite rev_app_distr. simpl rev. rewrite <- app_assoc, for_return_app.
  rewrite for_return_None.
  - simpl. now rewrite Hm.
  - intros x Hx. apply in_rev in Hx. now rewrite (Hlater x Hx).
Qed.

Lemma extract_most_recent_report_witness :
  _extract_report (py "Done.")
    ([LONG_REPORT; py "draft"] ++ ([NL] ++ LONG_REPORT ++ py "  ") :: [py "Report written."])
  = strip ([NL] ++ LONG_REPORT ++ py "  ").
Proof.
  apply (extract_most_recent_report (py "Done.") [LONG_REPORT; py "draft"]
           ([NL] ++ LONG_REPORT ++ py "  ") [py "Report written."]).
  - vm_compute. reflexivity.
  - vm_compute. reflexivity.
  - intros x [<-|[]]. vm_compute. reflexivity.
Defined.

(** ** Strategy 4 *)

Lemma search_from_Some fl r s : forall pos prev p,
  search_from fl r pos prev s = Some p ->
  exists before after,
    s = before ++ after /\ p = pos + length before /\
    match_here fl r (last_of prev before) after = true.
Proof.
  induction s as [|x s IH]; intros pos prev p; simpl.
  - destruct (match_here fl r prev []) eqn:E; [|discriminate].
    intros [= <-]. exists [], []. simpl. split; [reflexivity|]. split; [lia | exact E].
  - destruct (match_here fl r prev (x :: s)) eqn:E.
    + intros [= <-]. exists [], (x :: s). simpl.
      split; [reflexivity|]. split; [lia | exact E].
    + intros H. apply IH in H as [before [after [-> [-> H]]]].
      exists (x :: before), after. simpl.
      split; [reflexivity|]. split; [lia | exact H].
Qed.

Lemma slice_from_app {A} (before after : list A) :
  slice_from (Z.of_nat (length before)) (before ++ after) = after.
Proof.
  unfold slice_from. destruct (Z.of_nat (length before) <? 0)%Z eqn:E.
  - apply Z.ltb_lt in E. lia.
  - rewrite Nat2Z.id. now rewrite skipn_app, skipn_all, Nat.sub_diag.
Qed.

Lemma search_heading_slice r fl text start :
  opens_with_hash r ->
  (forall prev s, match_here fl r prev s = true ->
                  exists d rest, s = HASH :: SP :: d :: rest) ->
  search r text fl = Some start ->
  exists d rest, slice_from (Z.of_nat start) text = HASH :: SP :: d :: rest.
Proof.
  intros _ Hshape H. unfold search in H.
  apply search_from_Some in H as [before [after [-> [-> H]]]].
  simpl. rewrite slice_from_app. eapply Hshape, H.
Qed.

(** X4. What strategy 4 returns is longer than 300 characters and begins
    with the heading marker [# ]: the text before the heading it found is
    cut off. *)
Theorem strategy4_starts_at_heading
    (result_text : str) (message_texts : list str) (report : str) :
  strategy4 result_text message_texts = Some report ->
  300 < length report /\ exists rest, report = HASH :: SP :: rest.
Proof.
  intros H. apply strategy4_inv in H as [start [Hs [-> Hlen]]].
  split; [exact Hlen|].
  assert (Hslice : exists d rest,
            slice_from (Z.of_nat start) (full_text result_text message_texts)
            = HASH :: SP :: d :: rest).
  { destruct Hs as [Hs|[_ Hs]].
    - eapply (search_heading_slice _ _ _ _ REPORT_HEADING_opens); [|exact Hs].
      intros prev s Hm.
      apply match_here_report_heading in Hm as [_ [gap [w [w' [rest Hm]]]]].
      destruct Hm as [-> [Hne _]]. destruct gap as [|d gap]; [congruence|].
      now exists d, (gap ++ w' ++ rest).
    - eapply (search_heading_slice _ _ _ _ H1_opens); [|exact Hs].
      intros prev s Hm. apply match_here_H1 in Hm as [_ [c [rest [-> _]]]].
      now exists c, rest. }
  destruct Hslice as [d [rest Hslice]]. rewrite Hslice in *.
  destruct (strip_keeps_head HASH SP (d :: rest)) as [r Hr];
    [reflexivity | lia |].
  rewrite Hr. now exists r.
Qed.

Lemma strategy4_starts_at_heading_witness :
  300 < length (py "# EV Market Report" ++ [NL] ++ repeat 120%N 400) /\
  exists rest,
    py "# EV Market Report" ++ [NL] ++ repeat 120%N 400 = HASH :: SP :: rest.
Proof.
  apply (strategy4_starts_at_heading [] NOTES_THEN_REPORT).
  vm_compute. reflexivity.
Defined.

(** ** Blank reports and the runner's failure *)

Lemma is_report_text_not_blank text n :
  _is_report_text text n = true -> blank (strip text) = false.
Proof.
  intros H. rewrite blank_strip.
  destruct (blank text) eqn:E; [|reflexivity].
  now rewrite (is_report_text_blank _ n E) in H.
Qed.

Lemma last_n_blank k (ms : list str) :
  forallb blank ms = true -> blank (join BLANK (last_n k ms)) = true.
Proof. intros H. rewrite blank_join. now apply forallb_slice_from. Qed.

Lemma extract_report_blank_iff rt ms :
  blank (_extract_report rt ms) = true <->
  blank rt = true /\ forallb blank ms = true.
Proof.
  split.
  - apply extract_report_cases.
    + intros r H. apply strategy1_inv in H as [-> H].
      apply is_report_text_not_blank in H. congruence.
    + intros n r H. apply single_message_inv in H as [m [_ [-> H]]].
      apply is_report_text_not_blank in H. congruence.
    + intros n r H. apply trailing_window_inv in H as [k [_ [_ [-> H]]]].
      apply is_report_text_not_blank in H. congruence.
    + intros r H Hb. apply strategy4_inv in H as [p [_ [Hr Hlen]]].
      apply strip_nil_iff in Hb. rewrite Hr, strip_idempotent, <- Hr in Hb.
      rewrite Hb in Hlen. simpl in Hlen. lia.
    + intros r H. apply strategy5_inv in H as [_ [k [_ [_ [-> H]]]]].
      apply is_report_text_not_blank in H. congruence.
    + unfold last_resort.
      destruct (truthy (strip (full_text rt ms))) eqn:E.
      * rewrite blank_strip. intros Hb. apply strip_nil_iff in Hb.
        rewrite Hb in E. discriminate.
      * intros _. apply truthy_false_iff, strip_nil_iff in E.
        rewrite full_text_blank in E. now apply andb_true_iff in E.
  - intros [Hr Hm]. apply extract_report_cases.
    + intros r H. apply strategy1_inv in H as [_ H].
      now rewrite (is_report_text_blank _ _ Hr) in H.
    + intros n r H. apply single_message_inv in H as [m [Hin [_ H]]].
      rewrite List.forallb_forall in Hm.
      now rewrite (is_report_text_blank _ _ (Hm m Hin)) in H.
    + intros n r H. apply trailing_window_inv in H as [k [_ [_ [_ H]]]].
      now rewrite (is_report_text_blank _ _ (last_n_blank k ms Hm)) in H.
    + intros r H. apply strategy4_inv in H as [p [Hs _]].
      assert (Hf : blank (full_text rt ms) = true)
        by now rewrite full_text_blank, Hr, Hm.
      destruct Hs as [Hs|[_ Hs]].
      * now rewrite (search_blank _ _ _ REPORT_HEADING_opens Hf) in Hs.
      * now rewrite (search_blank _ _ _ H1_opens Hf) in Hs.
    + intros r H. apply strategy5_inv in H as [_ [k [_ [_ [_ H]]]]].
      rewrite is_report_text_blank in H; [discriminate|].
      rewrite !blank_app, (last_n_blank k ms Hm), Hr. reflexivity.
    + unfold last_resort.
      destruct (truthy (strip (full_text rt ms))) eqn:E; [|exact Hr].
      now rewrite blank_strip, full_text_blank, Hr, Hm.
Qed.

Lemma run_research_agent_result (stream : list Message) :
  let st := consume stream in
  snd (run_research_agent stream)
  = if blank (result_text st) && forallb blank (message_texts st)
    then inl (NoReportContent (search_count st) (fetch_count st))
    else inr (_extract_report (result_text st) (message_texts st)).
Proof.
  cbv zeta. unfold run_research_agent. cbv zeta.
  set (st := consume stream).
  set (report := _extract_report (result_text st) (message_texts st)).
  assert (H : truthy (strip report)
              = negb (blank (result_text st) && forallb blank (message_texts st))).
  { destruct (blank (result_text st) && forallb blank (message_texts st)) eqn:E.
    - apply andb_true_iff, extract_report_blank_iff, strip_nil_iff in E.
      fold report in E. now rewrite E.
    - destruct (truthy (strip report)) eqn:Et; [reflexivity|].
      apply truthy_false_iff, strip_nil_iff, extract_report_blank_iff in Et.
      apply andb_true_iff in Et. congruence. }
  rewrite H.
  now destruct (blank (result_text st) && forallb blank (message_texts st)).
Qed.

(** X5. [run_research_agent] raises its [RuntimeError] exactly when the
    captured terminal result and every collected message text hold white
    space only (or nothing); the error carries the two tool counts.  In
    every other case it returns what [_extract_report] gives. *)
Theorem run_research_agent_outcome (stream : list Message) :
  let st := consume stream in
  snd (run_research_agent stream)
  = if blank (result_text st) && forallb blank (message_texts st)
    then inl (NoReportContent (search_count st) (fetch_count st))
    else inr (_extract_report (result_text st) (message_texts st)).
Proof. apply run_research_agent_result. Qed.

(** ** What the loop collects *)

Lemma fold_on_block_parts content : forall parts st,
  fst (fold_left on_block content (parts, st)) = parts ++ texts_of content.
Proof.
  induction content as [|b content IH]; intros parts st; simpl.
  - now rewrite app_nil_r.
  - destruct b as [text|name input|]; simpl.
    + rewrite IH. now rewrite <- app_assoc.
    + repeat case_decide; apply IH.
    + apply IH.
Qed.

Lemma on_block_message_texts acc block :
  message_texts (snd (on_block acc block)) = message_texts (snd acc).
Proof.
  destruct acc as [parts st], block as [text|name input|]; simpl; try reflexivity.
  repeat case_decide; reflexivity.
Qed.

Lemma fold_on_block_message_texts content : forall acc,
  message_texts (snd (fold_left on_block content acc)) = message_texts (snd acc).
Proof.
  induction content as [|b content IH]; intros acc; simpl; [reflexivity|].
  now rewrite IH, on_block_message_texts.
Qed.

Lemma on_message_message_texts st message :
  message_texts (on_message st message) = message_texts st ++ message_text message.
Proof.
  destruct message as [content|[r|]| |]; simpl;
    try (now rewrite app_nil_r).
  - pose proof (fold_on_block_parts content [] st) as Hp.
    pose proof (fold_on_block_message_texts content ([], st)) as Hm.
    destruct (fold_left on_block content ([], st)) as [parts st'].
    simpl in Hp, Hm. subst parts.
    destruct (texts_of content); simpl; [now rewrite app_nil_r | now rewrite Hm].
  - destruct (truthy r); simpl; now rewrite app_nil_r.
Qed.

Lemma fold_on_message_message_texts stream : forall st,
  message_texts (fold_left on_message stream st)
  = message_texts st ++ flat_map message_text stream.
Proof.
  induction stream as [|m stream IH]; intros st; simpl.
  - now rewrite app_nil_r.
  - now rewrite IH, on_message_message_texts, <- app_assoc.
Qed.

(** X6. The message texts the runner collects are, in arrival order, one
    entry for every assistant message that has a text block: its text
    blocks joined by a newline.  Assistant messages without text, tool
    uses and the other messages add nothing, and texts of different
    messages are never merged. *)
Theorem collected_message_texts (stream : list Message) :
  message_texts (consume stream) = flat_map message_text stream.
Proof. unfold consume. now rewrite fold_on_message_message_texts. Qed.

(** ** What the loop counts *)

Lemma uses_of_cons name t tools :
  uses_of name (t :: tools)
  = (if bool_decide (t = name) then 1 else 0) + uses_of name tools.
Proof. unfold uses_of. simpl. now destruct (bool_decide (t = name)). Qed.

Lemma uses_of_app name tools tools' :
  uses_of name (tools ++ tools') = uses_of name tools + uses_of name tools'.
Proof. unfold uses_of. now rewrite List.filter_app, length_app. Qed.

Lemma counted_refl st : counted st st [].
Proof.
  unfold counted, uses_of. simpl.
  rewrite !Nat.add_0_r, !app_nil_r. auto.
Qed.

Lemma counted_trans st st' st'' tools tools' :
  counted st st' tools -> counted st' st'' tools' ->
  counted st st'' (tools ++ tools').
Proof.
  intros [Hs [Hf [Hsn Hfn]]] [Hs' [Hf' [Hsn' Hfn']]].
  unfold counted. rewrite !uses_of_app, !seq_app.
  rewrite Hs', Hf', Hsn', Hfn', Hs, Hf, Hsn, Hfn, <- !app_assoc.
  split; [now rewrite Nat.add_assoc|]. split; [now rewrite Nat.add_assoc|].
  split; reflexivity.
Qed.

Lemma search_numbers_app log log' :
  search_numbers (log ++ log') = search_numbers log ++ search_numbers log'.
Proof. apply flat_map_app. Qed.

Lemma fetch_numbers_app log log' :
  fetch_numbers (log ++ log') = fetch_numbers log ++ fetch_numbers log'.
Proof. apply flat_map_app. Qed.

Lemma search_is_not_fetch : py "WebSearch" <> py "WebFetch".
Proof. vm_compute. discriminate. Qed.

Lemma counted_block parts st block :
  counted st (snd (on_block (parts, st) block)) (tools_of [block]).
Proof.
  destruct block as [text|name input|]; simpl; try apply counted_refl.
  unfold counted. rewrite !uses_of_cons.
  change (uses_of _ []) with 0. rewrite !Nat.add_0_r.
  destruct (decide (name = py "WebSearch")) as [->|Hns].
  - rewrite (bool_decide_eq_true_2 (py "WebSearch" = py "WebSearch")) by reflexivity.
    rewrite (bool_decide_eq_false_2 _ search_is_not_fetch).
    cbn [snd search_count fetch_count emitted].
    rewrite search_numbers_app, fetch_numbers_app.
    cbn [search_numbers fetch_numbers flat_map fst app seq].
    rewrite !app_nil_r, Nat.add_0_r.
    split; [lia|]. split; [reflexivity|]. split; reflexivity.
  - destruct (decide (name = py "WebFetch")) as [->|Hnf].
    + rewrite (bool_decide_eq_true_2 (py "WebFetch" = py "WebFetch")) by reflexivity.
      rewrite (bool_decide_eq_false_2 _ Hns).
      cbn [snd search_count fetch_count emitted].
      rewrite search_numbers_app, fetch_numbers_app.
      cbn [search_numbers fetch_numbers flat_map fst app seq].
      rewrite !app_nil_r, Nat.add_0_r.
      split; [reflexivity|]. split; [lia|]. split; reflexivity.
    + rewrite !bool_decide_eq_false_2 by assumption.
      cbn [snd seq]. rewrite !Nat.add_0_r, !app_nil_r. auto.
Qed.

Lemma tools_of_cons block content :
  tools_of (block :: content) = tools_of [block] ++ tools_of content.
Proof. now destruct block. Qed.

Lemma counted_blocks content : forall parts st,
  counted st (snd (fold_left on_block content (parts, st))) (tools_of content).
Proof.
  induction content as [|b content IH]; intros parts st.
  - apply counted_refl.
  - change (fold_left on_block (b :: content) (parts, st))
      with (fold_left on_block content (on_block (parts, st) b)).
    rewrite tools_of_cons.
    destruct (on_block (parts, st) b) as [parts' st'] eqn:E.
    eapply counted_trans; [|apply IH].
    pose proof (counted_block parts st b) as H. now rewrite E in H.
Qed.

Lemma counted_message st message :
  counted st (on_message st message) (tool_uses [message]).
Proof.
  destruct message as [content|[r|]| |]; simpl; try apply counted_refl.
  - rewrite app_nil_r.
    pose proof (counted_blocks content [] st) as H.
    destruct (fold_left on_block content ([], st)) as [parts st'].
    simpl in H. destruct parts; exact H.
  - destruct (truthy r); [|apply counted_refl].
    exact (counted_refl st).
Qed.

Lemma counted_stream stream : forall st,
  counted st (fold_left on_message stream st) (tool_uses stream).
Proof.
  induction stream as [|m stream IH]; intros st.
  - apply counted_refl.
  - replace (tool_uses (m :: stream)) with (tool_uses [m] ++ tool_uses stream)
      by (unfold tool_uses; simpl; now rewrite app_nil_r).
    eapply counted_trans; [apply counted_message | apply IH].
Qed.

(** X7. At the end of the stream the search count is the number of
    [WebSearch] tool uses and the fetch count the number of [WebFetch]
    tool uses, any other tool being ignored; the progress messages for
    searches carry 1, 2, ... up to the search count in that order, and so
    do those for fetches. *)
Theorem tool_use_counts (stream : list Message) :
  let st := consume stream in
  search_count st = uses_of (py "WebSearch") (tool_uses stream) /\
  fetch_count st = uses_of (py "WebFetch") (tool_uses stream) /\
  search_numbers (emitted st) = seq 1 (search_count st) /\
  fetch_numbers (emitted st) = seq 1 (fetch_count st).
Proof.
  cbv zeta. destruct (counted_stream stream initial) as [Hs [Hf [Hsn Hfn]]].
  fold (consume stream) in Hs, Hf, Hsn, Hfn. simpl in Hs, Hf, Hsn, Hfn.
  rewrite Hs, Hf. auto.
Qed.

End AgentMore.


(* ===================================================================== *)
(** * The task prompt and the fallback file name *)
(* ===================================================================== *)

Module PromptProps.
Import PyStr AgentPrompt WebWire Notions StrFacts.

Lemma startswith_app old v : startswith old (old ++ v) = true.
Proof.
  induction old as [|c old IH]; simpl; [now destruct v|].
  now rewrite N.eqb_refl.
Qed.

Lemma replace_from_skip old new w v :
  replace_from old new (length w) (w ++ v) = replace_from old new 0 v.
Proof.
  induction w as [|c w IH]; simpl; [|exact IH].
  destruct v; reflexivity.
Qed.

Lemma replace_from_free c old' new u v :
  ~ In c u ->
  replace_from (c :: old') new 0 (u ++ v)
  = u ++ replace_from (c :: old') new 0 v.
Proof.
  induction u as [|x u IH]; intros Hc; [reflexivity|].
  simpl app. simpl replace_from.
  destruct (c =? x)%N eqn:E.
  - apply N.eqb_eq in E. subst. exfalso. apply Hc. now left.
  - simpl. f_equal. apply IH. intros H. apply Hc. now right.
Qed.

Lemma replace_from_hit c old' new v :
  replace_from (c :: old') new 0 ((c :: old') ++ v)
  = new ++ replace_from (c :: old') new 0 v.
Proof.
  simpl app. simpl replace_from.
  rewrite N.eqb_refl, startswith_app. simpl. rewrite Nat.sub_0_r.
  now rewrite replace_from_skip.
Qed.

Lemma replace_from_miss c old' new x s :
  startswith (c :: old') (x :: s) = false ->
  replace_from (c :: old') new 0 (x :: s)
  = x :: replace_from (c :: old') new 0 s.
Proof. intros H. simpl replace_from. simpl in H. now rewrite H. Qed.

Lemma replace_from_all_free c old' new u :
  ~ In c u -> replace_from (c :: old') new 0 u = u.
Proof.
  intros H. rewrite <- (app_nil_r u) at 1.
  rewrite (replace_from_free _ _ _ _ _ H). simpl. apply app_nil_r.
Qed.

Lemma not_in_app {A} (x : A) l l' : ~ In x l -> ~ In x l' -> ~ In x (l ++ l').
Proof. intros H H' Hin. apply in_app_or in Hin as [|]; auto. Qed.

(** The first replacement leaves the second placeholder alone. *)
Lemma replace_topic_placeholder new post :
  ~ In BRACE post ->
  replace_from (py "{topic}") new 0 (py "{additional_instructions}" ++ post)
  = py "{additional_instructions}" ++ post.
Proof.
  intros Hpost.
  change (py "{topic}") with (BRACE :: py "topic}").
  change (py "{additional_instructions}")
    with (BRACE :: py "additional_instructions}").
  change ((BRACE :: py "additional_instructions}") ++ post)
    with (BRACE :: (py "additional_instructions}" ++ post)).
  rewrite replace_from_miss by reflexivity. f_equal.
  apply replace_from_all_free. apply not_in_app; [|exact Hpost].
  vm_compute. intuition discriminate.
Qed.

Lemma topic_placeholder : py "{topic}" = BRACE :: py "topic}".
Proof. reflexivity. Qed.

Lemma instructions_placeholder :
  py "{additional_instructions}" = BRACE :: py "additional_instructions}".
Proof. reflexivity. Qed.

Lemma replace_topic pre mid post topic :
  ~ In BRACE pre -> ~ In BRACE mid -> ~ In BRACE post ->
  replace (template pre mid post) (py "{topic}") topic
  = pre ++ topic ++ mid ++ py "{additional_instructions}" ++ post.
Proof.
  intros Hpre Hmid Hpost. unfold template.
  pose proof (replace_topic_placeholder topic post Hpost) as Hrest.
  rewrite topic_placeholder in *. unfold replace.
  rewrite (replace_from_free _ _ _ _ _ Hpre), replace_from_hit.
  rewrite (replace_from_free _ _ _ _ _ Hmid). now rewrite Hrest.
Qed.

Lemma replace_instructions u post extra :
  ~ In BRACE u -> ~ In BRACE post ->
  replace (u ++ py "{additional_instructions}" ++ post)
    (py "{additional_instructions}") extra
  = u ++ extra ++ post.
Proof.
  intros Hu Hpost. rewrite instructions_placeholder. unfold replace.
  rewrite (replace_from_free _ _ _ _ _ Hu), replace_from_hit.
  now rewrite (replace_from_all_free _ _ _ _ Hpost).
Qed.

(** X8. On a template that has the topic placeholder and then the
    instructions placeholder, and no other opening brace, the task prompt
    for a topic without an opening brace is the template with the topic in
    the place of the first and, in the place of the second, nothing when
    the instructions are blank and else the line
    [**Additional Instructions:**] with the instructions stripped. *)
Theorem task_prompt_substitutes
    (pre mid post topic additional_instructions : str) :
  ~ In BRACE pre -> ~ In BRACE mid -> ~ In BRACE post -> ~ In BRACE topic ->
  task_prompt (template pre mid post) topic additional_instructions
  = pre ++ topic ++ mid ++ instructions_line additional_instructions ++ post.
Proof.
  intros Hpre Hmid Hpost Htopic. unfold task_prompt. cbv zeta.
  assert (Hextra :
    (if truthy (strip additional_instructions)
     then py "**Additional Instructions:** " ++ strip additional_instructions
     else []) = instructions_line additional_instructions).
  { unfold instructions_line.
    destruct (blank additional_instructions) eqn:E.
    - apply strip_nil_iff in E. now rewrite E.
    - destruct (strip additional_instructions) eqn:Es; [|reflexivity].
      apply strip_nil_iff in Es. congruence. }
  rewrite Hextra, (replace_topic _ _ _ _ Hpre Hmid Hpost).
  rewrite !app_assoc, <- (app_assoc _ _ post).
  rewrite replace_instructions;
    [| apply not_in_app; [apply not_in_app|]; assumption | assumption].
  now rewrite <- !app_assoc.
Qed.

Lemma task_prompt_substitutes_witness :
  task_prompt (template (py "Research ") (py "." ++ [NL]) (py " Use sources."))
    (py "EV chargers") (py "  focus on Europe ")
  = py "Research EV chargers." ++ [NL]
    ++ py "**Additional Instructions:** focus on Europe Use sources.".
Proof.
  rewrite (task_prompt_substitutes (py "Research ") (py "." ++ [NL])
             (py " Use sources.") (py "EV chargers") (py "  focus on Europe "));
    [vm_compute; reflexivity | vm_compute; intuition discriminate ..].
Defined.

(** ** The fallback file name *)

Lemma replace_space s :
  replace s [SP] (py "_") = map (fun c => if (c =? SP)%N then 95%N else c) s.
Proof.
  unfold replace. induction s as [|c s IH]; [reflexivity|].
  change (replace_from [SP] (py "_") 0 (c :: s))
    with (if (SP =? c)%N && true
          then py "_" ++ replace_from [SP] (py "_") 0 s
          else c :: replace_from [SP] (py "_") 0 s).
  cbn [map]. rewrite andb_true_r, N.eqb_sym, IH.
  now destruct (c =? SP)%N.
Qed.

(** X9. The stem of the Markdown fallback file is the first 40
    characters of the topic with every space turned into an underscore:
    it is no longer than 40 characters and has no space, and every other
    character, a path separator included, is kept where it is. *)
Theorem fallback_stem_spec (topic : str) :
  fallback_stem topic
  = map (fun c => if (c =? SP)%N then 95%N else c) (firstn 40 topic) /\
  length (fallback_stem topic) = Nat.min 40 (length topic) /\
  ~ In SP (fallback_stem topic) /\
  (forall c, c <> SP -> In c (firstn 40 topic) -> In c (fallback_stem topic)).
Proof.
  unfold fallback_stem. rewrite replace_space.
  split; [reflexivity|]. split; [now rewrite length_map, length_firstn|].
  split.
  - intros H. apply in_map_iff in H as [c [Hc _]].
    destruct (c =? SP)%N eqn:E; [discriminate|].
    apply N.eqb_neq in E. congruence.
  - intros c Hc Hin. apply in_map_iff. exists c. split; [|exact Hin].
    apply N.eqb_neq in Hc. now rewrite Hc.
Qed.

End PromptProps.

(* ===================================================================== *)
(** * More on the streaming session manager *)
(* ===================================================================== *)

Module WebMore.
Import PyStr Web WebWire Notions WebProps.

(** ** The polling loop *)

(** X10. The polling loop forwards every queue item as a [log] event
    followed by a [status] event, in the order the items arrive; what else
    it yields are heartbeats, which never change that order. *)
Theorem polling_keeps_order (started last_heartbeat : Z) (ps : list poll) :
  List.filter (fun e => negb (is_heartbeat e)) (polling started last_heartbeat ps)
  = flat_map (fun it => [log (fst it) (snd it); status_event (fst it)])
      (queue_items ps).
Proof.
  revert last_heartbeat.
  induction ps as [|[message msg_type now|now] ps IH]; intros lh.
  - reflexivity.
  - cbn [polling queue_items flat_map fst snd app].
    change (List.filter _ (log message msg_type :: status_event message :: ?l))
      with (log message msg_type :: status_event message
            :: List.filter (fun e => negb (is_heartbeat e)) l).
    now rewrite IH.
  - cbn [polling queue_items].
    destruct (now - lh >=? 10)%Z; [|apply IH].
    cbv zeta.
    match goal with
    | |- List.filter ?f (?e :: ?l) = _ =>
        change (List.filter f (e :: l)) with (List.filter f l)
    end.
    apply IH.
Qed.









(** ** The registry *)



(** X13. A cancel request for the session of a stream that has
    registered its task and is still running is accepted: the endpoint
    answers [cancelled], the task of that stream is asked to cancel, and
    the session id is unregistered at once, the other sessions staying as
    they were before the stream started. *)
Theorem cancel_running_stream (session_id : str) (w : world) :
  let agent_task := fst (start_session session_id w) in
  let running := snd (start_session session_id w) in
  let body : gmap str str := {[ py "session_id" := session_id ]} in
  _active_sessions running !! session_id = Some agent_task /\
  fst (cancel_research body running) = Response (py "cancelled") session_id 200 /\
  tasks (snd (cancel_research body running)) agent_task = Pending true /\
  _active_sessions (snd (cancel_research body running))
  = delete session_id (_active_sessions w).
Proof.
  cbv zeta. unfold start_session, create_task. cbv zeta. cbn [fst snd].
  assert (Hsid : session_of {[ py "session_id" := session_id ]} = session_id).
  { unfold session_of. now rewrite lookup_singleton_eq. }
  assert (Hreg : _active_sessions
            (with_sessions
               {| _active_sessions := _active_sessions w;
                  tasks := <[next_task w := Pending false]> (tasks w);
                  next_task := S (next_task w) |}
               (<[session_id := next_task w]> (_active_sessions w)))
            !! session_id = Some (next_task w)).
  { simpl. apply lookup_insert_eq. }
  split; [exact Hreg|].
  rewrite (cancel_research_active _ _ (next_task w)).
  - rewrite Hsid. simpl. split; [reflexivity|].
    split; [apply fn_lookup_insert | apply delete_insert_eq].
  - now rewrite Hsid.
  - simpl. now rewrite fn_lookup_insert.
Qed.

(** ** The wire format *)

Lemma hex_digit_printable n : (n < 16)%N -> printable (hex_digit n).
Proof.
  unfold printable, hex_digit. intros H.
  destruct (n <? 10)%N eqn:E; [apply N.ltb_lt in E | apply N.ltb_ge in E]; lia.
Qed.

(** Closed characters are checked by computation. *)
Ltac closed_printable :=
  repeat (constructor; [unfold printable; vm_compute; intuition discriminate|]);
  try constructor.

Lemma u_escape_printable n : Forall printable (u_escape n).
Proof.
  unfold u_escape.
  constructor; [unfold printable, BACKSLASH; lia|].
  constructor; [unfold printable; lia|].
  repeat (constructor;
          [apply hex_digit_printable; apply N.mod_lt; discriminate|]).
  constructor.
Qed.

Lemma escape_char_printable c : Forall printable (escape_char c).
Proof.
  unfold escape_char.
  destruct (c =? 34)%N; [closed_printable|].
  destruct (c =? 92)%N; [closed_printable|].
  destruct (c =? 10)%N; [closed_printable|].
  destruct (c =? 13)%N; [closed_printable|].
  destruct (c =? 9)%N; [closed_printable|].
  destruct (c =? 8)%N; [closed_printable|].
  destruct (c =? 12)%N; [closed_printable|].
  destruct ((32 <=? c) && (c <=? 126))%N eqn:E.
  - apply andb_true_iff in E as [H1 H2]. apply N.leb_le in H1, H2.
    constructor; [unfold printable; lia | constructor].
  - destruct (c <? 65536)%N; [apply u_escape_printable|].
    cbv zeta. apply Forall_app. split; apply u_escape_printable.
Qed.

Lemma flat_map_printable (f : char -> str) s :
  (forall c, Forall printable (f c)) -> Forall printable (flat_map f s).
Proof.
  intros H. induction s as [|c s IH]; simpl; [constructor|].
  apply Forall_app. split; [apply H | exact IH].
Qed.

Lemma json_string_printable s : Forall printable (json_string s).
Proof.
  unfold json_string. apply Forall_app. split; [closed_printable|].
  apply Forall_app. split; [|closed_printable].
  apply flat_map_printable, escape_char_printable.
Qed.

Lemma digits_printable u : Forall printable (digits u).
Proof.
  induction u; simpl; try constructor; try assumption;
    unfold printable; lia.
Qed.

Lemma str_of_int_printable n : Forall printable (str_of_int n).
Proof.
  destruct n as [|p|p]; simpl.
  - closed_printable.
  - apply digits_printable.
  - constructor; [unfold printable; vm_compute; intuition discriminate|].
    apply digits_printable.
Qed.

Lemma json_value_printable v : Forall printable (json_value v).
Proof. destruct v; [apply json_string_printable | apply str_of_int_printable]. Qed.

Lemma join_printable sep (parts : list str) :
  Forall printable sep -> Forall (Forall printable) parts ->
  Forall printable (join sep parts).
Proof.
  intros Hsep. induction parts as [|p [|q parts] IH]; intros H.
  - constructor.
  - simpl. now inversion H.
  - inversion H as [|? ? Hp Hrest]; subst.
    change (join sep (p :: q :: parts)) with (p ++ sep ++ join sep (q :: parts)).
    apply Forall_app. split; [exact Hp|].
    apply Forall_app. split; [exact Hsep | now apply IH].
Qed.

Lemma json_dumps_printable (data : list (str * json)) :
  Forall printable (json_dumps data) /\ ~ In NL (json_dumps data).
Proof.
  assert (H : Forall printable (json_dumps data)).
  { unfold json_dumps. apply Forall_app. split; [closed_printable|].
    apply Forall_app. split; [|closed_printable].
    apply join_printable; [closed_printable|].
    induction data as [|[k v] data IH]; cbn [map fst snd]; [constructor|].
    constructor; [|exact IH].
    apply Forall_app. split; [apply json_string_printable|].
    apply Forall_app. split; [closed_printable | apply json_value_printable]. }
  split; [exact H|].
  intros Hin. rewrite List.Forall_forall in H.
  apply H in Hin. unfold printable, NL in Hin. lia.
Qed.

(** X14. The text [_sse] builds for an event is the event line, one data
    line and an empty line.  Whatever strings and numbers the payload
    carries, the data line holds printable ASCII characters only:
    newlines, quotes, control characters and characters outside ASCII are
    escaped, so no payload can end an event early or start another one. *)
Theorem sse_wire_one_data_line (e : sse) :
  exists line,
    wire e = py "event: " ++ event e ++ [NL] ++ line ++ [NL; NL] /\
    Forall printable line /\ ~ In NL line.
Proof.
  exists (py "data: " ++ json_dumps (data e)).
  destruct (json_dumps_printable (data e)) as [Hp Hn].
  split; [unfold wire; now rewrite <- !app_assoc|].
  assert (H : Forall printable (py "data: " ++ json_dumps (data e))).
  { apply Forall_app. split; [closed_printable | exact Hp]. }
  split; [exact H|].
  intros Hin. rewrite List.Forall_forall in H.
  apply H in Hin. unfold printable, NL in Hin. lia.
Qed.

End WebMore.

(* ===================================================================== *)
(** * The configuration and the command line *)
(* ===================================================================== *)

Module CliProps.
Import PyStr Agent Web Config Cli Notions StrFacts AgentMore.

Lemma load_config_api_key files environ :
  fst (load_config files environ) !! py "api_key"
  = Some (match environ !! API_KEY with
          | Some v => v
          | None => default [] (first_existing files ≫= (fun vs => vs !! API_KEY))
          end).
Proof.
  unfold load_config, first_existing, load_dotenv. cbv zeta. cbn [fst].
  rewrite lookup_singleton_eq. f_equal.
  destruct (cwd_env files) as [vs|];
    [|destruct (project_env files) as [vs|];
      [|destruct (found_env files) as [vs|]]];
    cbn [mbind option_bind];
    try (rewrite lookup_union; destruct (environ !! API_KEY);
         [now destruct (vs !! API_KEY) | now destruct (vs !! API_KEY)]).
  now destruct (environ !! API_KEY).
Qed.

(** X15. The API key [load_config] returns is the exported value of
    [ANTHROPIC_API_KEY] whenever the variable is exported, be it empty;
    otherwise it is the value in the first [.env] file that exists (the
    working directory's, else the project root's, else the one
    [load_dotenv] finds), later files not being read; otherwise it is
    empty.  [validate_config] lets the configuration pass exactly when that
    key is not empty, and exits with code 1 when it is. *)
Theorem api_key_resolution (files : dotenv_files) (environ : gmap str str) :
  let api_key :=
    match environ !! API_KEY with
    | Some v => v
    | None => default [] (first_existing files ≫= (fun vs => vs !! API_KEY))
    end in
  fst (load_config files environ) !! py "api_key" = Some api_key /\
  validate_config (fst (load_config files environ))
  = if truthy api_key then None else Some (ExitCode 1).
Proof.
  cbv zeta. split; [apply load_config_api_key|].
  unfold validate_config. now rewrite load_config_api_key.
Qed.

Lemma research_cases
    (files : dotenv_files) (environ : gmap str str) (stream : list Message)
    (render_pdf : render_result) (write_text : option exn) :
  let st := consume stream in
  research files environ stream render_pdf write_text
  = match validate_config (fst (load_config files environ)) with
    | Some e => Exited e
    | None =>
        if blank (result_text st) && forallb blank (message_texts st)
        then Exited (ExitCode 1)
        else match render_pdf, write_text with
             | Rendered name path, _ => Saved name path
             | RenderFailed _, None => Exited (ExitCode 1)
             | RenderFailed _, Some e => Uncaught e
             end
    end.
Proof.
  cbv zeta. unfold research. cbv zeta.
  destruct (validate_config _); [reflexivity|].
  rewrite run_research_agent_result.
  destruct (blank _ && forallb blank _); [reflexivity|].
  destruct render_pdf; [reflexivity|]. now destruct write_text.
Qed.

(** X16. For a run whose agent stream comes to its end, the [research]
    command ends with a saved report exactly when the API key is
    configured, the agent's output holds something other than white
    space, and the renderer succeeds.  The exception of the fallback write
    is let through, after a rendering failure of a run that had a key and
    some output; in every other case the command exits with code 1. *)
Theorem research_ending
    (files : dotenv_files) (environ : gmap str str) (stream : list Message)
    (render_pdf : render_result) (write_text : option exn) :
  let st := consume stream in
  let ran :=
    validate_config (fst (load_config files environ)) = None /\
    blank (result_text st) && forallb blank (message_texts st) = false in
  let ending := research files environ stream render_pdf write_text in
  (forall name path,
     ending = Saved name path <-> ran /\ render_pdf = Rendered name path) /\
  (forall e,
     ending = Uncaught e <->
     ran /\ (exists e', render_pdf = RenderFailed e') /\ write_text = Some e) /\
  ((forall name path, ending <> Saved name path) ->
   (forall e, ending <> Uncaught e) -> ending = Exited (ExitCode 1)).
Proof.
  cbv zeta. rewrite research_cases. cbv zeta.
  unfold validate_config.
  destruct (truthy _);
    [|split; [|split]; [intros name path | intros e | reflexivity];
      (split; [discriminate | intros [[H _] _]; discriminate])].
  destruct (blank _ && forallb blank _);
    [split; [|split]; [intros name path | intros e | reflexivity];
     (split; [discriminate | intros [[_ H] _]; discriminate])|].
  destruct render_pdf as [n p|e0], write_text as [e1|].
  - split; [|split].
    + intros name path. split; [intros [= -> ->]; now split|].
      intros [_ [= -> ->]]. reflexivity.
    + intros e. split; [discriminate|]. intros [_ [[e' H] _]]. discriminate.
    + intros H _. now destruct (H n p).
  - split; [|split].
    + intros name path. split; [intros [= -> ->]; now split|].
      intros [_ [= -> ->]]. reflexivity.
    + intros e. split; [discriminate|]. intros [_ [_ H]]. discriminate.
    + intros H _. now destruct (H n p).
  - split; [|split].
    + intros name path. split; [discriminate|]. intros [_ H]. discriminate.
    + intros e. split; [intros [= ->]|intros [_ [_ [= ->]]]; reflexivity].
      split; [now split|]. split; [now exists e0 | reflexivity].
    + intros _ H. now destruct (H e1).
  - split; [|split].
    + intros name path. split; [discriminate|]. intros [_ H]. discriminate.
    + intros e. split; [discriminate|]. intros [_ [_ H]]. discriminate.
    + reflexivity.
Qed.

End CliProps.

(* ===================================================================== *)
(** * The end of a stream, and the runner's diagnostics *)
(* ===================================================================== *)

Module EndProps.
Import PyStr Agent Web Notions WebProps.

Lemma finishing_terminal env :
  fallback_lost env = false ->
  exists before,
    finishing env (Done (outcome env)) = (before ++ [terminal_event env], None) /\
    quiet before = true.
Proof.
  unfold fallback_lost, finishing, terminal_event.
  destruct (outcome env) as [md|e|]; cbn [cancelled result].
  - destruct (render_pdf env) as [name path|e].
    + intros _. eexists (CONVERTING ++ [log _ _]).
      split; [now rewrite <- app_assoc | reflexivity].
    + destruct (write_text env); [discriminate|]. intros _.
      exists CONVERTING. split; reflexivity.
  - intros _. exists []. split; reflexivity.
  - intros _. exists []. split; reflexivity.
Qed.

(** X17. Unless the fallback write fails after a rendering failure, a
    stream raises nothing and its last event tells how the run ended:
    [cancelled] for a cancelled task, [error_event] with the message of
    the exception for a failed one, [complete] with the file name, page
    count and path for a rendered report, and [error_event] saying that
    the Markdown was saved for a rendering failure.  No event before it
    is terminal. *)
Theorem stream_ends_by_outcome
    (topic prompt : str) (n : Z) (session_id : str) (env : environment) (w : world) :
  fallback_lost env = false ->
  let s := fst (event_stream topic prompt n session_id env w) in
  raised s = None /\
  terminal (terminal_event env) = true /\
  exists before,
    events s = before ++ [terminal_event env] /\ quiet before = true.
Proof.
  intros Hf. cbv zeta. rewrite event_stream_stream. cbn [events raised].
  destruct (finishing_terminal env Hf) as [before [-> Hq]]. cbn [fst snd].
  split; [reflexivity|]. split.
  - unfold terminal_event.
    destruct (outcome env); [destruct (render_pdf env)| |]; reflexivity.
  - eexists. rewrite !app_assoc. split; [reflexivity|].
    now rewrite !quiet_app, opening_quiet, polling_quiet, draining_quiet, Hq.
Qed.

Lemma stream_ends_by_outcome_witness :
  exists before,
    events (fst (event_stream (py "EV chargers") [] 50 (py "1f0c9a2e")
                   RENDER_FAILS EMPTY))
    = before ++ [error_event (py "PDF generation failed: no fonts. Markdown saved.")]
    /\ quiet before = true.
Proof.
  apply (stream_ends_by_outcome (py "EV chargers") [] 50 (py "1f0c9a2e")
           RENDER_FAILS EMPTY).
  reflexivity.
Defined.

(** ** The largest messages *)

Lemma insert_by_size_In x l y : In y (insert_by_size x l) <-> y = x \/ In y l.
Proof.
  induction l as [|z l IH]; simpl; [intuition|].
  destruct (snd x <? snd z); simpl; [rewrite IH|]; intuition.
Qed.

Lemma insert_by_size_length x l : length (insert_by_size x l) = S (length l).
Proof.
  induction l as [|z l IH]; simpl; [reflexivity|].
  destruct (snd x <? snd z); simpl; [now rewrite IH | reflexivity].
Qed.

Lemma insert_by_size_descending x l :
  descending l -> descending (insert_by_size x l).
Proof.
  induction l as [|z l IH]; simpl; [intuition|].
  intros [Hz Hl]. destruct (snd x <? snd z) eqn:E; simpl.
  - apply Nat.ltb_lt in E. split; [|now apply IH].
    intros y Hy. apply insert_by_size_In in Hy as [->|Hy]; [lia | now apply Hz].
  - apply Nat.ltb_ge in E. split; [|now split].
    intros y [<-|Hy]; [exact E|]. apply Hz in Hy. lia.
Qed.

Lemma sorted_by_size_In l y : In y (sorted_by_size l) <-> In y l.
Proof.
  induction l as [|x l IH]; simpl; [reflexivity|].
  rewrite insert_by_size_In, IH. intuition.
Qed.

Lemma sorted_by_size_length l : length (sorted_by_size l) = length l.
Proof.
  induction l as [|x l IH]; simpl; [reflexivity|].
  now rewrite insert_by_size_length, IH.
Qed.

Lemma sorted_by_size_descending l : descending (sorted_by_size l).
Proof.
  induction l as [|x l IH]; simpl; [exact I|].
  now apply insert_by_size_descending.
Qed.

Lemma descending_app l l' :
  descending (l ++ l') ->
  descending l /\ forall x y, In x l -> In y l' -> snd y <= snd x.
Proof.
  induction l as [|z l IH]; simpl; [intros _; split; [exact I | intros x y []]|].
  intros [Hz Hl]. destruct (IH Hl) as [Hd Hc]. split.
  - split; [|exact Hd]. intros y Hy. apply Hz, in_or_app. now left.
  - intros x y [<-|Hx] Hy; [apply Hz, in_or_app; now right | now apply Hc].
Qed.

Lemma enumerate_from_In {A} (l : list A) : forall i j (t : A),
  In (j, t) (enumerate_from i l) <-> i <= j /\ nth_error l (j - i) = Some t.
Proof.
  induction l as [|x l IH]; intros i j t; simpl.
  - split; [intros [] | intros [_ H]]. now destruct (j - i).
  - rewrite IH. split.
    + intros [[= <- <-]|[Hle H]].
      * rewrite Nat.sub_diag. now split.
      * split; [lia|]. replace (j - i) with (S (j - S i)) by lia. exact H.
    + intros [Hle H]. destruct (j - i) as [|k] eqn:E.
      * left. injection H as <-. f_equal. lia.
      * right. split; [lia|]. now replace (j - S i) with k by lia.
Qed.

Lemma enumerate_from_length {A} (l : list A) i :
  length (enumerate_from i l) = length l.
Proof. revert i. induction l as [|x l IH]; intros i; simpl; [|rewrite IH]; reflexivity. Qed.

Lemma sizes_In texts i sz :
  In (i, sz) (map (fun it : nat * str => (fst it, length (snd it)))
                (enumerate_from 0 texts))
  <-> exists t, nth_error texts i = Some t /\ sz = length t.
Proof.
  rewrite in_map_iff. split.
  - intros [[j t] [[= <- <-] H]]. apply enumerate_from_In in H as [_ H].
    rewrite Nat.sub_0_r in H. now exists t.
  - intros [t [H ->]]. exists (i, t). split; [reflexivity|].
    apply enumerate_from_In. rewrite Nat.sub_0_r. split; [lia | exact H].
Qed.

(** X18. The [Largest messages] progress message, sent whenever a
    message text was collected, lists the five largest message texts, or
    all of them when there are fewer: each entry is the index and the
    length of a collected text, the entries come largest first, and no
    text left out is longer than a listed one. *)
Theorem largest_messages_spec (stream : list Message) :
  let texts := message_texts (consume stream) in
  let top := largest_messages texts in
  (texts <> [] ->
   In (LargestMessages top, py "phase") (fst (run_research_agent stream))) /\
  length top = Nat.min 5 (length texts) /\
  descending top /\
  (forall i sz, In (i, sz) top ->
     exists t, nth_error texts i = Some t /\ sz = length t) /\
  (forall i t, nth_error texts i = Some t ->
     In (i, length t) top \/ forall y, In y top -> length t <= snd y).
Proof.
  cbv zeta. set (texts := message_texts (consume stream)).
  unfold largest_messages.
  set (sizes := map (fun it : nat * str => (fst it, length (snd it)))
                  (enumerate_from 0 texts)).
  pose proof (sorted_by_size_descending sizes) as Hdesc.
  rewrite <- (firstn_skipn 5 (sorted_by_size sizes)) in Hdesc.
  apply descending_app in Hdesc as [Hd Hc].
  split; [|split; [|split; [exact Hd|split]]].
  - intros Hne. unfold run_research_agent. cbv zeta. fold texts.
    destruct texts as [|t0 texts0] eqn:Et; [congruence|].
    fold sizes.
    destruct (truthy _); cbn [fst]; rewrite ?in_app_iff; simpl; tauto.
  - rewrite length_firstn, sorted_by_size_length. unfold sizes.
    now rewrite length_map, enumerate_from_length.
  - intros i sz Hin.
    assert (Hin' : In (i, sz) (sorted_by_size sizes)).
    { rewrite <- (firstn_skipn 5 (sorted_by_size sizes)).
      apply in_or_app. now left. }
    apply (proj1 (sorted_by_size_In _ _)) in Hin'.
    exact (proj1 (sizes_In texts i sz) Hin').
  - intros i t Ht.
    assert (Hin : In (i, length t) (sorted_by_size sizes)).
    { apply (proj2 (sorted_by_size_In _ _)).
      apply (proj2 (sizes_In texts i (length t))). now exists t. }
    rewrite <- (firstn_skipn 5 (sorted_by_size sizes)) in Hin.
    apply in_app_or in Hin as [Hin|Hin]; [now left|].
    right. intros y Hy. exact (Hc y _ Hy Hin).
Qed.

End EndProps.
